(** * PostGIS Raster band: a shallow embedding of postgisrasterrasterband.cpp

    The band class of the PostGIS Raster driver is embedded function by
    function: [TranslateDataType], the constructor, the getters, the
    windowed read [IRasterIO] and the block read.  C [int]s are integers
    of [Z] wrapped to 32 bits, C [double]s are the kernel's binary64
    floats, C strings are [string]s read up to their first NUL.

    What the band calls in the host library (GDAL), in libpq and in libc
    is gathered in a record of operations, [Host], that the band is
    parameterised by.  What a call changes outside the band (the commands
    sent to the store, the errors reported, the caller's buffer) is a
    [World] threaded through the calls.  [CPLDebug] traces are left out. *)

From Stdlib Require Import ZArith List String Ascii Bool Lia.
From Stdlib Require Import Uint63 Floats DecimalString Zpower.
Import ListNotations.

Local Open Scope Z_scope.

(** ** C scalars *)

Module C.

(** [int]: two's complement on 32 bits.  Arithmetic is written with the
    wrap-around that the compiled code exhibits. *)
Definition INT_MIN : Z := - 2 ^ 31.
Definition INT_MAX : Z := 2 ^ 31 - 1.

Definition in_int (z : Z) : bool := (INT_MIN <=? z) && (z <=? INT_MAX).

Definition wrap (z : Z) : Z := (z + 2 ^ 31) mod 2 ^ 32 - 2 ^ 31.

Definition add (a b : Z) : Z := wrap (a + b).
Definition sub (a b : Z) : Z := wrap (a - b).
Definition mul (a b : Z) : Z := wrap (a * b).

(** [MIN(a, b)], the macro [((a < b) ? a : b)]. *)
Definition MIN (a b : Z) : Z := if a <? b then a else b.

(** [(double) i] for an integer [i]: exact below 2^53, so for every
    [int]. *)
Definition of_int (z : Z) : float :=
  match z with
  | Z0 => PrimFloat.zero
  | Zpos _ => PrimFloat.of_uint63 (Uint63.of_Z z)
  | Zneg p => (- PrimFloat.of_uint63 (Uint63.of_Z (Zpos p)))%float
  end.

(** The integer part, towards zero, of a finite float. *)
Definition trunc_SF (x : spec_float) : option Z :=
  match x with
  | S754_zero _ => Some 0
  | S754_finite s m e =>
      let v := if 0 <=? e then Zpos m * 2 ^ e else Zpos m / 2 ^ (- e) in
      Some (if s then - v else v)
  | _ => None
  end.

(** [(int) x] for a [double] [x]: the fraction is dropped; a value that
    no [int] holds (too large, infinite, not a number) gives [INT_MIN],
    the "integer indefinite" of the conversion instruction. *)
Definition cast_int (x : float) : Z :=
  match trunc_SF (Prim2SF x) with
  | Some z => if in_int z then z else INT_MIN
  | None => INT_MIN
  end.

(** [floor(x)] of libm: the largest integral double not above [x].
    Zeros, infinities, NaN and the doubles from 2^52 on, which have no
    fraction, are returned as they are. *)
Definition floor_SF (x : spec_float) : option Z :=
  match x with
  | S754_finite s m e =>
      if 0 <=? e then None
      else Some (if s then - ((Zpos m + 2 ^ (- e) - 1) / 2 ^ (- e))
                 else Zpos m / 2 ^ (- e))
  | _ => None
  end.

Definition floor (x : float) : float :=
  match floor_SF (Prim2SF x) with
  | Some z => of_int z
  | None => x
  end.

Definition fabs (x : float) : float := PrimFloat.abs x.

(** [char]: the C locale's [tolower]. *)
Definition NUL : ascii := Ascii.zero.

Definition tolower (c : ascii) : ascii :=
  let n := N_of_ascii c in
  if ((65 <=? n) && (n <=? 90))%N then ascii_of_N (n + 32) else c.

(** A C string is read up to its terminating NUL: past the end of the
    [string] every character reads as NUL. *)
Definition head (s : string) : ascii :=
  match s with EmptyString => NUL | String c _ => c end.

Definition tail (s : string) : string :=
  match s with EmptyString => EmptyString | String _ t => t end.

(** [strncasecmp(a, b, n) == 0]. *)
Fixpoint strncasecmp_eq (a b : string) (n : nat) : bool :=
  match n with
  | O => true
  | S n' =>
      if Ascii.eqb (tolower (head a)) (tolower (head b)) then
        if Ascii.eqb (head a) NUL then true
        else strncasecmp_eq (tail a) (tail b) n'
      else false
  end.

End C.

(** ** What the band uses of the host library *)

Inductive CPLErr := CE_None | CE_Debug | CE_Warning | CE_Failure | CE_Fatal.

Inductive CPLErrorNum :=
  | CPLE_None | CPLE_AppDefined | CPLE_OutOfMemory | CPLE_FileIO
  | CPLE_OpenFailed | CPLE_IllegalArg | CPLE_NotSupported
  | CPLE_AssertionFailed | CPLE_NoWriteAccess | CPLE_UserInterrupt.

Inductive GDALRWFlag := GF_Read | GF_Write.

Inductive GDALAccess := GA_ReadOnly | GA_Update.

Inductive GDALDataType :=
  | GDT_Unknown | GDT_Byte | GDT_UInt16 | GDT_Int16 | GDT_UInt32 | GDT_Int32
  | GDT_Float32 | GDT_Float64
  | GDT_CInt16 | GDT_CInt32 | GDT_CFloat32 | GDT_CFloat64.

(** [GDALGetDataTypeSize]: the width of a pixel of the type, in bits. *)
Definition GDALGetDataTypeSize (t : GDALDataType) : Z :=
  match t with
  | GDT_Unknown => 0
  | GDT_Byte => 8
  | GDT_UInt16 | GDT_Int16 => 16
  | GDT_UInt32 | GDT_Int32 | GDT_Float32 | GDT_CInt16 => 32
  | GDT_Float64 | GDT_CInt32 | GDT_CFloat32 => 64
  | GDT_CFloat64 => 128
  end.

(** [EQUALN(a, b, n)] of cpl_port.h: [(strncasecmp(a, b, n) == 0)]. *)
Definition EQUALN (a b : string) (n : nat) : bool := C.strncasecmp_eq a b n.

(** ** PostGISRasterRasterBand::TranslateDataType *)

Definition TranslateDataType (pszDataType : string) : GDALDataType :=
  if EQUALN pszDataType "1BB" 3 ||
     EQUALN pszDataType "2BUI" 4 ||
     EQUALN pszDataType "4BUI" 4 ||
     EQUALN pszDataType "8BUI" 4 ||
     EQUALN pszDataType "8BSI" 4
  then GDT_Byte
  else if EQUALN pszDataType "16BSI" 5 then GDT_Int16
  else if EQUALN pszDataType "16BUI" 5 then GDT_UInt16
  else if EQUALN pszDataType "32BSI" 5 then GDT_Int32
  else if EQUALN pszDataType "32BUI" 5 then GDT_UInt32
  else if EQUALN pszDataType "32BF" 4 then GDT_Float32
  else if EQUALN pszDataType "64BF" 4 then GDT_Float64
  else GDT_Unknown.

(** The eleven pixel type tags of the store, each with the type the
    classifier is expected to give. *)
Definition pixel_type_tags : list (string * GDALDataType) :=
  [ ("1BB", GDT_Byte); ("2BUI", GDT_Byte); ("4BUI", GDT_Byte);
    ("8BUI", GDT_Byte); ("8BSI", GDT_Byte);
    ("16BSI", GDT_Int16); ("16BUI", GDT_UInt16);
    ("32BSI", GDT_Int32); ("32BUI", GDT_UInt32);
    ("32BF", GDT_Float32); ("64BF", GDT_Float64) ]%string.

Definition recognized_tag (tag : string) : Prop :=
  In tag (map fst pixel_type_tags).

(** [ci_prefix p s]: [s] starts with the characters of [p], letter case
    apart. *)
Fixpoint ci_prefix (p s : string) : Prop :=
  match p, s with
  | EmptyString, _ => True
  | String _ _, EmptyString => False
  | String c p', String d s' => C.tolower d = C.tolower c /\ ci_prefix p' s'
  end.


(** ** libpq: the result of a command *)

Inductive ExecStatusType :=
  | PGRES_EMPTY_QUERY | PGRES_COMMAND_OK | PGRES_TUPLES_OK | PGRES_COPY_OUT
  | PGRES_COPY_IN | PGRES_BAD_RESPONSE | PGRES_NONFATAL_ERROR
  | PGRES_FATAL_ERROR.

Record PGresult := mkPGresult {
  PQresultStatus : ExecStatusType;
  PQtuples : list (list string)
}.

Definition PQntuples (r : PGresult) : Z := Z.of_nat (List.length (PQtuples r)).

Definition PQgetvalue (r : PGresult) (row col : nat) : string :=
  nth col (nth row (PQtuples r) []) EmptyString.

Definition is_tuples_ok (s : ExecStatusType) : bool :=
  match s with PGRES_TUPLES_OK => true | _ => false end.

(** ** The dataset, as the band reads it *)

(** Modelled from the spec: the positions of the six coefficients in the
    dataset's affine transform, [T = [tlx, wex, rot1, tly, rot2, nsy]]
    (the header postgisraster.h that names them is not part of the
    sources). *)
Definition GEOTRSFRM_TOPLEFT_X : nat := 0.
Definition GEOTRSFRM_WE_RES : nat := 1.
Definition GEOTRSFRM_ROTATION_PARAM1 : nat := 2.
Definition GEOTRSFRM_TOPLEFT_Y : nat := 3.
Definition GEOTRSFRM_ROTATION_PARAM2 : nat := 4.
Definition GEOTRSFRM_NS_RES : nat := 5.

Module PostGISRasterDataset.

Record t := mk {
  nRasterXSize : Z;
  nRasterYSize : Z;
  eAccess : GDALAccess;
  bRegularBlocking : bool;
  pszSchema : string;
  pszTable : string;
  pszColumn : string;
  pszWhere : option string;
  nSrid : Z;
  xmin : float;
  ymax : float;
  adfGeoTransform : list float;
  pszProjection : string
}.

Definition GetRasterXSize (d : t) : Z := nRasterXSize d.
Definition GetRasterYSize (d : t) : Z := nRasterYSize d.
Definition GetAccess (d : t) : GDALAccess := eAccess d.

(** Modelled from the spec: [GetGeoTransform] hands out the dataset's
    affine transform, six doubles. *)
Definition GetGeoTransform (d : t) : list float := firstn 6 (adfGeoTransform d).

End PostGISRasterDataset.

Module DS := PostGISRasterDataset.

(** [a[i]] for an array of doubles. *)
Definition at_ (a : list float) (i : nat) : float := nth i a PrimFloat.zero.

(** ** The band *)

#[warnings="-register-all"]
Inductive Band := mkBand {
  poDS : DS.t;
  nBand : Z;
  bIsOffline : bool;
  eAccess : GDALAccess;
  eDataType : GDALDataType;
  bHasNoDataValue : bool;
  dfNoDataValue : float;
  nBlockXSize : Z;
  nBlockYSize : Z;
  metadata : list (string * string * string);
  nOverviewFactor : Z;
  nOverviewCount : Z;
  papoOverviews : option (list Band);
  nRasterXSize : Z;
  nRasterYSize : Z
}.

(** The pixel window of a read and the shape of the caller's buffer. *)
Record Request := mkRequest {
  eRWFlag : GDALRWFlag;
  nXOff : Z;
  nYOff : Z;
  nXSize : Z;
  nYSize : Z;
  nBufXSize : Z;
  nBufYSize : Z;
  eBufType : GDALDataType;
  nPixelSpace : Z;
  nLineSpace : Z
}.

(** What a call can change outside the band: the commands sent to the
    store, the errors reported to the host, the bytes of the caller's
    buffer [pData]. *)
Record World := mkWorld {
  queries : list string;
  errors : list (CPLErr * CPLErrorNum * string);
  pData : list Byte.byte
}.

Definition CPLError (w : World) (c : CPLErr) (n : CPLErrorNum) (msg : string) : World :=
  {| queries := queries w; errors := errors w ++ [(c, n, msg)]; pData := pData w |}.

Definition sent (w : World) (cmd : string) : World :=
  {| queries := queries w ++ [cmd]; errors := errors w; pData := pData w |}.

(** An in-memory dataset over the pixels of one tile, and a source of the
    composite: the windows handed to [VRTAddSimpleSource]. *)
Record MEMDataset := mkMEM {
  mem_payload : string;
  mem_pixels : Z;
  mem_lines : Z;
  mem_type : GDALDataType;
  mem_nodata : float
}.

Record SimpleSource := mkSource {
  src_band : MEMDataset;
  nSrcXOff : Z;
  nSrcYOff : Z;
  nSrcXSize : Z;
  nSrcYSize : Z;
  nDstXOff : Z;
  nDstYOff : Z;
  nDstXSize : Z;
  nDstYSize : Z;
  src_nodata : float
}.

Record VRTDataset := mkVRT {
  vrt_xsize : Z;
  vrt_ysize : Z;
  vrt_description : string;
  vrt_projection : string;
  vrt_transform : list float;
  vrt_band_type : GDALDataType;
  vrt_sources : list SimpleSource
}.

(** The operations of the host library, of libpq and of libc that the band
    calls and that are not the band's own code. *)
Record Host := mkHost {
  PQexec : string -> option PGresult;
  atoi : string -> Z;
  atof : string -> float;
  printf_f17 : float -> string;
  VSICalloc : Z -> bool;
  CPLCalloc : Z -> bool;
  VRTCreate : Z -> Z -> bool;
  MEMDataset_Open : MEMDataset -> bool;
  MEM_GetRasterBand : MEMDataset -> bool;
  VRTRasterIO : VRTDataset -> Request -> list Byte.byte -> CPLErr * list Byte.byte;
  OverviewRasterIO : Band -> Request -> World -> CPLErr * World
}.

(** [%d] and [%s] of printf. *)
Definition printf_d (z : Z) : string := NilZero.string_of_int (Z.to_int z).

(** ** The constructor *)

Section Band.

Local Open Scope string_scope.
Local Open Scope Z_scope.

(** The default block size of postgisraster.h, a header that is not part
    of the sources. *)
Variables DEFAULT_BLOCK_X_SIZE DEFAULT_BLOCK_Y_SIZE : Z.

Variable h : Host.

Definition SetMetadataItem (md : list (string * string * string))
    (name value domain : string) : list (string * string * string) :=
  (md ++ [(name, value, domain)])%list.

Definition overview_catalog_command (d : DS.t) : string :=
  ("select o_table_name, overview_factor, o_raster_column, "
   ++ "o_table_schema from raster_overviews where r_table_schema = "
   ++ "'" ++ DS.pszSchema d ++ "' and r_table_name = '" ++ DS.pszTable d
   ++ "' and r_raster_column = '" ++ DS.pszColumn d ++ "'")%string.

(** The block size, lines 79 to 93. *)
Definition block_size (d : DS.t) (nBlockXSize nBlockYSize : Z) : Z * Z :=
  if DS.bRegularBlocking d then (nBlockXSize, nBlockYSize)
  else (C.MIN (DS.nRasterXSize d) DEFAULT_BLOCK_X_SIZE,
        C.MIN (DS.nRasterYSize d) DEFAULT_BLOCK_Y_SIZE).

(** The items added to the IMAGE_STRUCTURE domain, lines 98 to 106. *)
Definition image_structure (bSignedByte : bool) (nBitDepth : Z)
    : list (string * string * string) :=
  let md := if bSignedByte
            then SetMetadataItem [] "PIXELTYPE" "SIGNEDBYTE" "IMAGE_STRUCTURE"
            else [] in
  if nBitDepth <? 8
  then SetMetadataItem md "NBITS" (printf_d nBitDepth) "IMAGE_STRUCTURE"
  else md.

(** Threading the world through the creation of the overviews, one per
    row of the catalog. *)
Fixpoint for_rows {A : Type} (f : nat -> World -> option (A * World))
    (k i : nat) (w : World) : option (list A * World) :=
  match k with
  | O => Some ([], w)
  | S k' =>
      match f i w with
      | None => None
      | Some (a, w1) =>
          match for_rows f k' (S i) w1 with
          | None => None
          | Some (l, w2) => Some (a :: l, w2)
          end
      end
  end.

(** [new PostGISRasterRasterBand(...)].  A band of level 0 creates its
    overviews by the same constructor; [fuel] bounds that nesting (a
    catalog row of factor 0 asks for a band of level 0 again), and [None]
    is the constructor that has not returned within it. *)
Fixpoint PostGISRasterRasterBand (fuel : nat) (poDS : DS.t) (nBand : Z)
    (hDataType : GDALDataType) (bHasNoDataValue : bool) (dfNodata : float)
    (bSignedByte : bool) (nBitDepth nFactor nBlockXSize nBlockYSize : Z)
    (bIsOffline : bool) (w : World) {struct fuel} : option (Band * World) :=
  let bs := block_size poDS nBlockXSize nBlockYSize in
  let md := image_structure bSignedByte nBitDepth in
  let band nCount ovs xs ys :=
    {| poDS := poDS; nBand := nBand; bIsOffline := bIsOffline;
       eAccess := DS.GetAccess poDS; eDataType := hDataType;
       bHasNoDataValue := bHasNoDataValue; dfNoDataValue := dfNodata;
       nBlockXSize := fst bs; nBlockYSize := snd bs; metadata := md;
       nOverviewFactor := nFactor; nOverviewCount := nCount;
       papoOverviews := ovs; nRasterXSize := xs; nRasterYSize := ys |} in
  if nFactor =? 0 then
    let xs := DS.GetRasterXSize poDS in
    let ys := DS.GetRasterYSize poDS in
    let osCommand := overview_catalog_command poDS in
    let w1 := sent w osCommand in
    let no_overviews := Some (band 0 None xs ys, w1) in
    match PQexec h osCommand with
    | None => no_overviews
    | Some poResult =>
        if is_tuples_ok (PQresultStatus poResult) && (0 <? PQntuples poResult) then
          let n := PQntuples poResult in
          if VSICalloc h n then
            match fuel with
            | O => None
            | S fuel' =>
                match for_rows
                        (fun i wi =>
                           PostGISRasterRasterBand fuel' poDS nBand hDataType
                             bHasNoDataValue dfNodata bSignedByte nBitDepth
                             (atoi h (PQgetvalue poResult i 1))
                             nBlockXSize nBlockYSize bIsOffline wi)
                        (List.length (PQtuples poResult)) 0%nat w1 with
                | None => None
                | Some (ovs, w2) => Some (band n (Some ovs) xs ys, w2)
                end
            end
          else
            Some (band n None xs ys,
                  CPLError w1 CE_Warning CPLE_OutOfMemory
                    ("Couldn't create overviews for band " ++ printf_d nBand
                     ++ String "010" EmptyString))
        else no_overviews
    end
  else
    Some (band 0 None
            (C.cast_int (C.floor (C.of_int (DS.GetRasterXSize poDS) / C.of_int nFactor)))
            (C.cast_int (C.floor (C.of_int (DS.GetRasterYSize poDS) / C.of_int nFactor))),
          w).

(** ** The getters *)

Definition GetBand (b : Band) : Z :=
  if negb (nOverviewFactor b =? 0) then 0 else nBand b.

Definition GetDataset (b : Band) : option DS.t :=
  if negb (nOverviewFactor b =? 0) then None else Some (poDS b).

Definition HasArbitraryOverviews (b : Band) : bool :=
  if negb (nOverviewFactor b =? 0) then false else true.

Definition GetOverviewCount (b : Band) : Z :=
  if negb (nOverviewFactor b =? 0) then 0 else nOverviewCount b.

Definition GetXSize (b : Band) : Z := nRasterXSize b.
Definition GetYSize (b : Band) : Z := nRasterYSize b.

Definition SetNoDataValue (b : Band) (dfNewValue : float) : CPLErr * Band :=
  (CE_None,
   {| poDS := poDS b; nBand := nBand b; bIsOffline := bIsOffline b;
      eAccess := eAccess b; eDataType := eDataType b;
      bHasNoDataValue := bHasNoDataValue b; dfNoDataValue := dfNewValue;
      nBlockXSize := nBlockXSize b; nBlockYSize := nBlockYSize b;
      metadata := metadata b; nOverviewFactor := nOverviewFactor b;
      nOverviewCount := nOverviewCount b; papoOverviews := papoOverviews b;
      nRasterXSize := nRasterXSize b; nRasterYSize := nRasterYSize b |}).

Definition GetNoDataValue (b : Band) : float * bool :=
  (dfNoDataValue b, bHasNoDataValue b).

Definition GetBlockSize (b : Band) (w : World) : (Z * Z) * World :=
  if (nBlockXSize b =? 0) || (nBlockYSize b =? 0) then
    ((0, 0),
     CPLError w CE_Failure CPLE_AppDefined
       ("This PostGIS Raster band has non regular blocking arrangement. "
        ++ "                This feature is under development"))
  else ((nBlockXSize b, nBlockYSize b), w).


(** ** The windowed read *)

(** One row of the tile query, as [atoi] and [atof] read its columns. *)
Record Tile := mkTile {
  pbyData : string;
  nTileWidth : Z;
  nTileHeight : Z;
  pszDataType : string;
  dfTileBandNoDataValue : float;
  dfTileScaleX : float;
  dfTileScaleY : float;
  dfTileUpperLeftX : float;
  dfTileUpperLeftY : float
}.

Definition fetch_tile (poResult : PGresult) (i : nat) : Tile :=
  {| pbyData := PQgetvalue poResult i 0;
     nTileWidth := atoi h (PQgetvalue poResult i 1);
     nTileHeight := atoi h (PQgetvalue poResult i 2);
     pszDataType := PQgetvalue poResult i 3;
     dfTileBandNoDataValue := atof h (PQgetvalue poResult i 4);
     dfTileScaleX := atof h (PQgetvalue poResult i 5);
     dfTileScaleY := atof h (PQgetvalue poResult i 6);
     dfTileUpperLeftX := atof h (PQgetvalue poResult i 7);
     dfTileUpperLeftY := atof h (PQgetvalue poResult i 8) |}.

(** The corners of the window in pixel space, [(ulx, uly, lrx, lry)], as
    lines 411 to 414 compute them. *)
Definition window_corners (rq : Request) (nBandDataSize : Z) : Z * Z * Z * Z :=
  (nXOff rq, nYOff rq,
   C.add (nXOff rq) (C.mul (nXSize rq) nBandDataSize),
   C.add (nYOff rq) (C.mul (nYSize rq) nBandDataSize)).

(** [adfProjWin], lines 416 to 439. *)
Definition proj_win (adfTransform : list float) (c : Z * Z * Z * Z) : list float :=
  let '(ulx, uly, lrx, lry) := c in
  let T := at_ adfTransform in
  [ T GEOTRSFRM_TOPLEFT_X + C.of_int ulx * T GEOTRSFRM_WE_RES
      + C.of_int uly * T GEOTRSFRM_ROTATION_PARAM1;
    T GEOTRSFRM_TOPLEFT_Y + C.of_int ulx * T GEOTRSFRM_ROTATION_PARAM2
      + C.of_int uly * T GEOTRSFRM_NS_RES;
    T GEOTRSFRM_TOPLEFT_X + C.of_int lrx * T GEOTRSFRM_WE_RES
      + C.of_int uly * T GEOTRSFRM_ROTATION_PARAM1;
    T GEOTRSFRM_TOPLEFT_Y + C.of_int lrx * T GEOTRSFRM_ROTATION_PARAM2
      + C.of_int uly * T GEOTRSFRM_NS_RES;
    T GEOTRSFRM_TOPLEFT_X + C.of_int lrx * T GEOTRSFRM_WE_RES
      + C.of_int lry * T GEOTRSFRM_ROTATION_PARAM1;
    T GEOTRSFRM_TOPLEFT_Y + C.of_int lrx * T GEOTRSFRM_ROTATION_PARAM2
      + C.of_int lry * T GEOTRSFRM_NS_RES;
    T GEOTRSFRM_TOPLEFT_X + C.of_int ulx * T GEOTRSFRM_WE_RES
      + C.of_int lry * T GEOTRSFRM_ROTATION_PARAM1;
    T GEOTRSFRM_TOPLEFT_Y + C.of_int ulx * T GEOTRSFRM_ROTATION_PARAM2
      + C.of_int lry * T GEOTRSFRM_NS_RES ]%float.

(** The vertices that the command's [POLYGON((...))] lists, in its
    order: [adfProjWin[0..7]] and then [adfProjWin[0]], [adfProjWin[1]]
    again. *)
Definition polygon_vertices (adfProjWin : list float) : list (float * float) :=
  let P := at_ adfProjWin in
  [ (P 0, P 1); (P 2, P 3); (P 4, P 5); (P 6, P 7); (P 0, P 1) ]%nat.

Definition polygon_text (vs : list (float * float)) : string :=
  String.concat ", "
    (map (fun v => printf_f17 h (fst v) ++ " " ++ printf_f17 h (snd v))%string vs).

Definition orderByX : string := "asc".

Definition orderByY (d : DS.t) : string :=
  if DS.nSrid d =? -1 then "asc" else "desc".

Definition order_clause (d : DS.t) : string :=
  (" ORDER BY ST_UpperLeftY(" ++ DS.pszColumn d ++ ") " ++ orderByY d
   ++ ", ST_UpperLeftX(" ++ DS.pszColumn d ++ ") " ++ orderByX)%string.

(** The command of lines 454 to 482, in three parts: what is selected
    and from where, the intersection with the polygon, the order.  The two
    format strings of the source differ by the dataset's filter only. *)
Definition select_from (d : DS.t) (nBand : Z) : string :=
  let col := DS.pszColumn d in
  ("SELECT st_band(" ++ col ++ ", " ++ printf_d nBand ++ "), st_width(" ++ col
   ++ "), st_height(" ++ col ++ "), st_bandpixeltype(" ++ col ++ ", "
   ++ printf_d nBand ++ "), st_bandnodatavalue(" ++ col ++ ", " ++ printf_d nBand
   ++ "), st_scalex(" ++ col ++ "), st_scaley(" ++ col ++ "), st_upperleftx("
   ++ col ++ "), st_upperlefty(" ++ col ++ ") FROM " ++ DS.pszSchema d ++ "."
   ++ DS.pszTable d ++ " WHERE "
   ++ match DS.pszWhere d with
      | None => ""
      | Some pszWhere => pszWhere ++ " AND "
      end)%string.

Definition intersects (d : DS.t) (vs : list (float * float)) : string :=
  ("st_intersects(" ++ DS.pszColumn d ++ ", st_polygonfromtext('POLYGON(("
   ++ polygon_text vs ++ "))', " ++ printf_d (DS.nSrid d) ++ "))")%string.

Definition tile_query_command (d : DS.t) (nBand : Z) (adfProjWin : list float) : string :=
  ((select_from d nBand ++ intersects d (polygon_vertices adfProjWin))
   ++ order_clause d)%string.

(** The source and destination windows of a tile, lines 642 to 667, and
    the source installed at lines 673 and 674. *)
Definition simple_source (d : DS.t) (adfTransform : list float) (t : Tile)
    (mem : MEMDataset) : SimpleSource :=
  let '(nSrcXOff, nDstXOff) :=
    if (dfTileUpperLeftX t <? DS.xmin d)%float then
      (C.cast_int ((DS.xmin d - dfTileUpperLeftX t) / dfTileScaleX t + 0.5)%float, 0)
    else
      (0, C.cast_int (0.5 + (dfTileUpperLeftX t - DS.xmin d) / at_ adfTransform 1)%float) in
  let '(nSrcYOff, nDstYOff) :=
    if (DS.ymax d <? dfTileUpperLeftY t)%float then
      (C.cast_int ((dfTileUpperLeftY t - DS.ymax d) / C.fabs (dfTileScaleY t) + 0.5)%float, 0)
    else
      (0, C.cast_int (0.5 + (DS.ymax d - dfTileUpperLeftY t)
                            / C.fabs (at_ adfTransform 5))%float) in
  let nDstXSize :=
    C.cast_int (0.5 + C.of_int (nTileWidth t) * dfTileScaleX t / at_ adfTransform 1)%float in
  let nDstYSize :=
    C.cast_int (0.5 + C.of_int (nTileHeight t) * C.fabs (dfTileScaleY t)
                      / C.fabs (at_ adfTransform 5))%float in
  {| src_band := mem;
     nSrcXOff := nSrcXOff; nSrcYOff := nSrcYOff;
     nSrcXSize := nTileWidth t; nSrcYSize := nTileHeight t;
     nDstXOff := nDstXOff; nDstYOff := nDstYOff;
     nDstXSize := nDstXSize; nDstYSize := nDstYSize;
     src_nodata := dfTileBandNoDataValue t |}.

(** The in-memory dataset opened over the pixels of a tile, lines 579 to
    634. *)
Definition tile_mem (t : Tile) : MEMDataset :=
  let eTileDataType := TranslateDataType (pszDataType t) in
  {| mem_payload := pbyData t; mem_pixels := nTileWidth t;
     mem_lines := nTileHeight t; mem_type := eTileDataType;
     mem_nodata := dfTileBandNoDataValue t |}.

(** One turn of the loop over the rows, lines 561 to 681: the sources
    installed so far and the world.  ([new GDALOpenInfo] throws rather
    than return a null pointer, so the first of the three skips of the
    loop is never taken.) *)
Definition add_tile (d : DS.t) (adfTransform : list float) (poResult : PGresult)
    (acc : list SimpleSource * World) (iTuplesIndex : nat) : list SimpleSource * World :=
  let '(sources, w) := acc in
  let t := fetch_tile poResult iTuplesIndex in
  let mem := tile_mem t in
  if negb (MEMDataset_Open h mem) then
    (sources,
     CPLError w CE_Warning CPLE_AppDefined
       "Could not create MEMDataset, skipping. The result image may contain gaps")
  else if negb (MEM_GetRasterBand h mem) then
    (sources,
     CPLError w CE_Warning CPLE_AppDefined
       "Could not get MEMRasterBand , skipping. The result image may contain gaps")
  else
    ((sources ++ [simple_source d adfTransform t mem])%list, w).

Definition install_sources (d : DS.t) (adfTransform : list float) (poResult : PGresult)
    (w : World) : list SimpleSource * World :=
  fold_left (add_tile d adfTransform poResult)
    (seq 0 (List.length (PQtuples poResult))) ([], w).

Definition set_pData (w : World) (buf : list Byte.byte) : World :=
  {| queries := queries w; errors := errors w; pData := buf |}.

(** The level 0 path: lines 406 to 711. *)
Definition read_tiles (b : Band) (rq : Request) (w : World) : CPLErr * World :=
  let d := poDS b in
  let nBandDataSize := Z.quot (GDALGetDataTypeSize (eDataType b)) 8 in
  let adfTransform := DS.GetGeoTransform d in
  let adfProjWin := proj_win adfTransform (window_corners rq nBandDataSize) in
  let osCommand := tile_query_command d (nBand b) adfProjWin in
  let w1 := sent w osCommand in
  let failed msg := (CE_Failure, CPLError w1 CE_Failure CPLE_AppDefined msg) in
  match PQexec h osCommand with
  | None => failed "Error retrieving raster data from database"
  | Some poResult =>
      if negb (is_tuples_ok (PQresultStatus poResult)) || (PQntuples poResult <? 0) then
        failed "Error retrieving raster data from database"
      else if PQntuples poResult =? 0 then (CE_None, w1)
      else if negb (CPLCalloc h (PQntuples poResult)) then
        failed "Memory error while trying to read band data from database"
      else if negb (VRTCreate h (nXSize rq) (nYSize rq)) then
        failed "Memory error while trying to read band data from database"
      else
        let '(sources, w2) := install_sources d adfTransform poResult w1 in
        let vrt := {| vrt_xsize := nXSize rq; vrt_ysize := nYSize rq;
                      vrt_description := "postgis_raster.vrt";
                      vrt_projection := DS.pszProjection d;
                      vrt_transform := adfTransform;
                      vrt_band_type := eDataType b;
                      vrt_sources := sources |} in
        let '(err, buf) := VRTRasterIO h vrt rq (pData w2) in
        (err, set_pData w2 buf)
  end.

Definition wants_overview (b : Band) (rq : Request) : bool :=
  ((nBufXSize rq <? nXSize rq) || (nBufYSize rq <? nYSize rq))
  && (0 <? GetOverviewCount b).

Definition IRasterIO (b : Band) (rq : Request) (w : World) : CPLErr * World :=
  match eRWFlag rq with
  | GF_Write =>
      (CE_Failure,
       CPLError w CE_Failure CPLE_NotSupported
         "Writing through PostGIS Raster band not supported yet")
  | GF_Read =>
      if wants_overview b rq then
        match OverviewRasterIO h b rq w with
        | (CE_None, w') => (CE_None, w')
        | (_, w') => read_tiles b rq w'
        end
      else read_tiles b rq w
  end.

(** ** The block read *)

Definition IReadBlock (b : Band) (nBlockXOff nBlockYOff : Z) (w : World)
    : CPLErr * World :=
  let nPixelSize := Z.quot (GDALGetDataTypeSize (eDataType b)) 8 in
  let nReadXSize :=
    if GetXSize b <? C.mul (C.add nBlockXOff 1) (nBlockXSize b)
    then C.sub (GetXSize b) (C.mul nBlockXOff (nBlockXSize b))
    else nBlockXSize b in
  let nReadYSize :=
    if GetYSize b <? C.mul (C.add nBlockYOff 1) (nBlockYSize b)
    then C.sub (GetYSize b) (C.mul nBlockYOff (nBlockYSize b))
    else nBlockYSize b in
  IRasterIO b
    {| eRWFlag := GF_Read;
       nXOff := C.mul nBlockXOff (nBlockXSize b);
       nYOff := C.mul nBlockYOff (nBlockYSize b);
       nXSize := nReadXSize; nYSize := nReadYSize;
       nBufXSize := nReadXSize; nBufYSize := nReadYSize;
       eBufType := eDataType b;
       nPixelSpace := nPixelSize;
       nLineSpace := C.mul nPixelSize (nBlockXSize b) |} w.

End Band.

Arguments block_size DEFAULT_BLOCK_X_SIZE DEFAULT_BLOCK_Y_SIZE d nBlockXSize nBlockYSize : assert.

(** The polygon that a read sends to the store. *)
Definition sent_polygon (b : Band) (rq : Request) : list (float * float) :=
  polygon_vertices
    (proj_win (DS.GetGeoTransform (poDS b))
       (window_corners rq (Z.quot (GDALGetDataTypeSize (eDataType b)) 8))).

(** The command that a read sends to the store. *)
Definition sent_command (h : Host) (b : Band) (rq : Request) : string :=
  tile_query_command h (poDS b) (nBand b)
    (proj_win (DS.GetGeoTransform (poDS b))
       (window_corners rq (Z.quot (GDALGetDataTypeSize (eDataType b)) 8))).

(** ** The specification's formulas *)

Module Spec.

(** A point of pixel space under the affine transform
    [T = [tlx, wex, rot1, tly, rot2, nsy]]. *)
Definition apply (T : list float) (p : Z * Z) : float * float :=
  let '(px, py) := p in
  (at_ T 0 + C.of_int px * at_ T 1 + C.of_int py * at_ T 2,
   at_ T 3 + C.of_int px * at_ T 4 + C.of_int py * at_ T 5)%float.

(** The closed pentagon (ul, ur, lr, ll, ul) over the corners of the
    window, in pixels. *)
Definition pentagon (T : list float) (x_off y_off x_size y_size : Z)
    : list (float * float) :=
  let ul := (x_off, y_off) in
  let ur := (x_off + x_size, y_off) in
  let lr := (x_off + x_size, y_off + y_size) in
  let ll := (x_off, y_off + y_size) in
  map (apply T) [ul; ur; lr; ll; ul].

(** Round half up: add 0.5, truncate. *)
Definition round (x : float) : Z := C.cast_int (x + 0.5)%float.

Record windows := mkWindows {
  src_x_off : Z; src_y_off : Z;
  dst_x_off : Z; dst_y_off : Z;
  dst_x_size : Z; dst_y_size : Z
}.

(** The per-tile window computation, from the dataset's upper left
    corner [(xmin, ymax)], its pixel scale [(dsx, dsy)] and the tile's
    geometry [(tlx, tly, tsx, tsy)] and size. *)
Definition tile_windows (xmin ymax dsx dsy tlx tly tsx tsy : float)
    (tile_width tile_height : Z) : windows :=
  {| src_x_off := if (tlx <? xmin)%float then round ((xmin - tlx) / tsx)%float else 0;
     dst_x_off := if (tlx <? xmin)%float then 0 else round ((tlx - xmin) / dsx)%float;
     src_y_off := if (ymax <? tly)%float
                  then round ((tly - ymax) / PrimFloat.abs tsy)%float else 0;
     dst_y_off := if (ymax <? tly)%float
                  then 0 else round ((ymax - tly) / PrimFloat.abs dsy)%float;
     dst_x_size := round (C.of_int tile_width * tsx / dsx)%float;
     dst_y_size := round (C.of_int tile_height * PrimFloat.abs tsy
                          / PrimFloat.abs dsy)%float |}.

End Spec.

(** The windows of an installed source. *)
Definition windows_of (s : SimpleSource) : Spec.windows :=
  {| Spec.src_x_off := nSrcXOff s; Spec.src_y_off := nSrcYOff s;
     Spec.dst_x_off := nDstXOff s; Spec.dst_y_off := nDstYOff s;
     Spec.dst_x_size := nDstXSize s; Spec.dst_y_size := nDstYSize s |}.

(** ** A store and a host to run the band on *)

Module Example.

Local Open Scope string_scope.
Local Open Scope Z_scope.

(** A decimal reader for the columns of the rows below: an optional
    sign, then digits. *)
Fixpoint digits (s : string) (acc : Z) : Z :=
  match s with
  | EmptyString => acc
  | String c t =>
      let n := Z.of_N (N_of_ascii c) in
      if (48 <=? n) && (n <=? 57) then digits t (10 * acc + (n - 48)) else acc
  end.

Definition decimal (s : string) : Z :=
  match s with
  | String "-" t => - digits t 0
  | String "+" t => digits t 0
  | _ => digits s 0
  end.

(** A store that answers the overview catalog with [catalog] and every
    other command with [tiles]. *)
Definition store (catalog tiles : option PGresult) (cmd : string) : option PGresult :=
  if String.prefix "select o_table_name" cmd then catalog else tiles.

Definition host (catalog tiles : option PGresult)
    (overview : Band -> Request -> World -> CPLErr * World) : Host :=
  {| PQexec := store catalog tiles;
     atoi := decimal;
     atof := fun s => C.of_int (decimal s);
     printf_f17 := fun x => printf_d (C.cast_int x); (* the integer part *)
     VSICalloc := fun _ => true;
     CPLCalloc := fun _ => true;
     VRTCreate := fun _ _ => true;
     MEMDataset_Open := fun _ => true;
     MEM_GetRasterBand := fun _ => true;
     VRTRasterIO := fun _ _ buf => (CE_None, buf);
     OverviewRasterIO := overview |}.

Definition rows (l : list (list string)) : option PGresult :=
  Some {| PQresultStatus := PGRES_TUPLES_OK; PQtuples := l |}.

(** An overview read that fails and leaves the world as it is, and one
    that fails after it has written into the caller's buffer. *)
Definition overview_fails (_ : Band) (_ : Request) (w : World) : CPLErr * World :=
  (CE_Failure, w).

Definition overview_fails_midway (_ : Band) (_ : Request) (w : World) : CPLErr * World :=
  (CE_Failure, set_pData w (map (fun _ => Byte.x01) (pData w))).

Definition overview_succeeds (_ : Band) (_ : Request) (w : World) : CPLErr * World :=
  (CE_None, set_pData w (map (fun _ => Byte.x01) (pData w))).

(** A 4 by 4 dataset at the transform (0, 1, 0, 0, 0, -1). *)
Definition dataset : DS.t :=
  {| DS.nRasterXSize := 4; DS.nRasterYSize := 4; DS.eAccess := GA_ReadOnly;
     DS.bRegularBlocking := false;
     DS.pszSchema := "public"; DS.pszTable := "tiles"; DS.pszColumn := "rast";
     DS.pszWhere := None; DS.nSrid := 4326;
     DS.xmin := 0%float; DS.ymax := 0%float;
     DS.adfGeoTransform := [0; 1; 0; 0; 0; -1]%float;
     DS.pszProjection := "" |}.

Definition world0 : World :=
  {| queries := []; errors := []; pData := [Byte.xaa; Byte.xaa; Byte.xaa; Byte.xaa] |}.

(** A band of [dataset] of the given type, at level 0 or, for a factor
    other than 0, an overview. *)
Definition band_of (h : Host) (t : GDALDataType) (nFactor : Z) : option (Band * World) :=
  PostGISRasterRasterBand 256 256 h 2 dataset 1 t true 0%float false 8 nFactor 0 0
    false world0.

(** The band of level 0 that the constructor builds for a catalog with
    one overview of factor 2, and that overview. *)
Definition overview_band (t : GDALDataType) : Band :=
  {| poDS := dataset; nBand := 1; bIsOffline := false; eAccess := GA_ReadOnly;
     eDataType := t; bHasNoDataValue := true; dfNoDataValue := 0%float;
     nBlockXSize := 4; nBlockYSize := 4; metadata := [];
     nOverviewFactor := 2; nOverviewCount := 0; papoOverviews := None;
     nRasterXSize := 2; nRasterYSize := 2 |}.

Definition base_band (t : GDALDataType) : Band :=
  {| poDS := dataset; nBand := 1; bIsOffline := false; eAccess := GA_ReadOnly;
     eDataType := t; bHasNoDataValue := true; dfNoDataValue := 0%float;
     nBlockXSize := 4; nBlockYSize := 4; metadata := [];
     nOverviewFactor := 0; nOverviewCount := 1;
     papoOverviews := Some [overview_band t];
     nRasterXSize := 4; nRasterYSize := 4 |}.

Definition catalog : option PGresult :=
  rows [["o_2_tiles"; "2"; "rast"; "public"]].

Definition host_overview_fails : Host := host catalog (rows []) overview_fails.

Definition host_overview_fails_midway : Host :=
  host catalog (rows []) overview_fails_midway.

Definition host_overview_succeeds : Host := host catalog (rows []) overview_succeeds.

Definition read (x y xs ys bx by_ : Z) : Request :=
  {| eRWFlag := GF_Read; nXOff := x; nYOff := y; nXSize := xs; nYSize := ys;
     nBufXSize := bx; nBufYSize := by_; eBufType := GDT_Byte;
     nPixelSpace := 1; nLineSpace := bx |}.

(** One tile on the corner of the dataset: payload, width, height, type,
    nodata, scale x, scale y, upper left x, upper left y. *)
Definition plain_tile : list string :=
  ["00"; "2"; "2"; "8BUI"; "0"; "1"; "-1"; "0"; "0"].

(** The result of a tile query of one row, and the source the loop
    installs for it. *)
Definition one_tile (row : list string) : PGresult :=
  {| PQresultStatus := PGRES_TUPLES_OK; PQtuples := [row] |}.

Definition source_of (row : list string) : SimpleSource :=
  simple_source dataset (DS.GetGeoTransform dataset)
    (fetch_tile host_overview_fails (one_tile row) 0)
    (tile_mem (fetch_tile host_overview_fails (one_tile row) 0)).

Definition write (x y xs ys : Z) : Request :=
  {| eRWFlag := GF_Write; nXOff := x; nYOff := y; nXSize := xs; nYSize := ys;
     nBufXSize := xs; nBufYSize := ys; eBufType := GDT_Byte;
     nPixelSpace := 1; nLineSpace := xs |}.

End Example.

(** ** The overviews of a band *)

(** What [GetOverview(i)] returns: the band's own overview
    [papoOverviews[i]] for an index below the overview count, the answer
    of the base class, [GDALRasterBand::GetOverview(i)], for any other.
    [InvalidOverview] stands for the read of [papoOverviews[i]] through a
    null array or past its end. *)
Inductive OverviewRef :=
  | OwnOverview (o : Band)
  | BaseOverview (i : Z)
  | InvalidOverview.

Definition GetOverview (b : Band) (i : Z) : OverviewRef :=
  if (0 <=? i) && (i <? GetOverviewCount b) then
    match papoOverviews b with
    | Some l =>
        match nth_error l (Z.to_nat i) with
        | Some o => OwnOverview o
        | None => InvalidOverview
        end
    | None => InvalidOverview
    end
  else BaseOverview i.

(** ** The parts of the reads *)

(** The window that [IReadBlock] asks [IRasterIO] for, lines 822 to 837. *)
Definition block_window (b : Band) (nBlockXOff nBlockYOff : Z) : Request :=
  let nPixelSize := Z.quot (GDALGetDataTypeSize (eDataType b)) 8 in
  let nReadXSize :=
    if GetXSize b <? C.mul (C.add nBlockXOff 1) (nBlockXSize b)
    then C.sub (GetXSize b) (C.mul nBlockXOff (nBlockXSize b))
    else nBlockXSize b in
  let nReadYSize :=
    if GetYSize b <? C.mul (C.add nBlockYOff 1) (nBlockYSize b)
    then C.sub (GetYSize b) (C.mul nBlockYOff (nBlockYSize b))
    else nBlockYSize b in
  {| eRWFlag := GF_Read;
     nXOff := C.mul nBlockXOff (nBlockXSize b);
     nYOff := C.mul nBlockYOff (nBlockYSize b);
     nXSize := nReadXSize; nYSize := nReadYSize;
     nBufXSize := nReadXSize; nBufYSize := nReadYSize;
     eBufType := eDataType b;
     nPixelSpace := nPixelSize;
     nLineSpace := C.mul nPixelSize (nBlockXSize b) |}.

(** Whether the loop of the read keeps the tile of row [i]: the in-memory
    dataset over its pixels opens and gives its band (lines 613 to 634). *)
Definition tile_opens (h : Host) (r : PGresult) (i : nat) : bool :=
  MEMDataset_Open h (tile_mem (fetch_tile h r i))
  && MEM_GetRasterBand h (tile_mem (fetch_tile h r i)).

(** The source that the loop installs for the tile of row [i]. *)
Definition tile_source (h : Host) (d : DS.t) (T : list float) (r : PGresult)
    (i : nat) : SimpleSource :=
  simple_source d T (fetch_tile h r i) (tile_mem (fetch_tile h r i)).

(** The composite that the level 0 path builds and reads from, lines 533
    to 691, for the rows [r] of the tile query. *)
Definition composite (h : Host) (b : Band) (rq : Request) (r : PGresult) : VRTDataset :=
  {| vrt_xsize := nXSize rq; vrt_ysize := nYSize rq;
     vrt_description := "postgis_raster.vrt";
     vrt_projection := DS.pszProjection (poDS b);
     vrt_transform := DS.GetGeoTransform (poDS b);
     vrt_band_type := eDataType b;
     vrt_sources :=
       map (tile_source h (poDS b) (DS.GetGeoTransform (poDS b)) r)
         (filter (tile_opens h r) (seq 0 (List.length (PQtuples r)))) |}.

(** ** More hosts and bands to run the code on *)

Module Scenario.

Local Open Scope string_scope.
Local Open Scope Z_scope.

(** A host whose allocations fail. *)
Definition without_memory (h : Host) : Host :=
  {| PQexec := PQexec h; atoi := atoi h; atof := atof h;
     printf_f17 := printf_f17 h;
     VSICalloc := fun _ => false;
     CPLCalloc := fun _ => false;
     VRTCreate := fun _ _ => false;
     MEMDataset_Open := MEMDataset_Open h;
     MEM_GetRasterBand := MEM_GetRasterBand h;
     VRTRasterIO := VRTRasterIO h;
     OverviewRasterIO := OverviewRasterIO h |}.

(** A store without overview catalog, a store that does not answer the
    tile query, a store with one tile on the corner of the dataset. *)
Definition host_no_catalog : Host :=
  Example.host None (Example.rows []) Example.overview_fails.

Definition host_no_answer : Host :=
  Example.host Example.catalog None Example.overview_fails.

Definition host_one_tile : Host :=
  Example.host Example.catalog (Some (Example.one_tile Example.plain_tile))
    Example.overview_fails.

(** A catalog whose only row carries a factor that [atoi] reads as 0. *)
Definition catalog_factor_0 : PGresult :=
  {| PQresultStatus := PGRES_TUPLES_OK;
     PQtuples := [["o_tiles"; "none"; "rast"; "public"]] |}.

Definition host_factor_0 : Host :=
  Example.host (Some catalog_factor_0) (Example.rows []) Example.overview_fails.

(** [Example.dataset] with tiles of one size. *)
Definition regular_dataset : DS.t :=
  {| DS.nRasterXSize := 4; DS.nRasterYSize := 4; DS.eAccess := GA_ReadOnly;
     DS.bRegularBlocking := true;
     DS.pszSchema := "public"; DS.pszTable := "tiles"; DS.pszColumn := "rast";
     DS.pszWhere := None; DS.nSrid := 4326;
     DS.xmin := 0%float; DS.ymax := 0%float;
     DS.adfGeoTransform := [0; 1; 0; 0; 0; -1]%float;
     DS.pszProjection := "" |}.

(** The answer to a tile query of two rows: the tile on the corner of the
    dataset, and a tile two pixels east and three pixels south of it. *)
Definition two_tiles : PGresult :=
  {| PQresultStatus := PGRES_TUPLES_OK;
     PQtuples := [Example.plain_tile;
                  ["11"; "2"; "2"; "8BUI"; "0"; "1"; "-1"; "2"; "-3"]] |}.

(** A mirrored dataset of 4 by 4 pixels: its pixel width is -1, so from
    its upper left corner (0, 0) it covers x in [-4, 0] and y in [-4, 0].
    Its upper right tile (2 by 2 pixels of the same scale) has its upper
    left corner at (-2, 0) and covers x in [-4, -2], y in [-2, 0]. *)
Definition mirrored_dataset : DS.t :=
  {| DS.nRasterXSize := 4; DS.nRasterYSize := 4; DS.eAccess := GA_ReadOnly;
     DS.bRegularBlocking := false;
     DS.pszSchema := "public"; DS.pszTable := "tiles"; DS.pszColumn := "rast";
     DS.pszWhere := None; DS.nSrid := 4326;
     DS.xmin := 0%float; DS.ymax := 0%float;
     DS.adfGeoTransform := [0; -1; 0; 0; 0; -1]%float;
     DS.pszProjection := "" |}.

Definition mirrored_row : list string :=
  ["00"; "2"; "2"; "8BUI"; "0"; "-1"; "-1"; "-2"; "0"].

Definition host_mirrored : Host :=
  Example.host None (Some (Example.one_tile mirrored_row)) Example.overview_fails.

Definition mirrored_band : Band :=
  {| poDS := mirrored_dataset; nBand := 1; bIsOffline := false;
     eAccess := GA_ReadOnly; eDataType := GDT_Byte;
     bHasNoDataValue := false; dfNoDataValue := 0%float;
     nBlockXSize := 4; nBlockYSize := 4; metadata := [];
     nOverviewFactor := 0; nOverviewCount := 0; papoOverviews := None;
     nRasterXSize := 4; nRasterYSize := 4 |}.

(** A band of 10 by 10 pixels in blocks of 4 by 4. *)
Definition band_10 : Band :=
  {| poDS := Example.dataset; nBand := 1; bIsOffline := false;
     eAccess := GA_ReadOnly; eDataType := GDT_Byte;
     bHasNoDataValue := false; dfNoDataValue := 0%float;
     nBlockXSize := 4; nBlockYSize := 4; metadata := [];
     nOverviewFactor := 0; nOverviewCount := 0; papoOverviews := None;
     nRasterXSize := 10; nRasterYSize := 10 |}.

End Scenario.

(** ** Notions the properties are stated with *)

(** A text without NUL: what a C string literal is. *)
Definition nul_free (p : string) : bool :=
  forallb (fun c => negb (Ascii.eqb c C.NUL)) (list_ascii_of_string p).

(** A float that is not below zero: a zero of either sign, a positive
    number, plus infinity, or not a number. *)
Definition sf_nonneg (x : spec_float) : Prop :=
  match x with
  | S754_zero _ | S754_nan => True
  | S754_infinity s | S754_finite s _ _ => s = false
  end.

(** A float whose sign bit is clear, or not a number. *)
Definition sf_plus (x : spec_float) : Prop :=
  match x with
  | S754_nan => True
  | S754_zero s | S754_infinity s | S754_finite s _ _ => s = false
  end.

(** An integer other than 0, by its sign and magnitude. *)
Definition signed (s : bool) (p : positive) : Z := if s then Zneg p else Zpos p.

Definition SFhalf : spec_float := S754_finite false 4503599627370496 (-53).

(** What [(int) x] gives for an [x] that is not below zero: a nonnegative
    integer, or [INT_MIN] when no [int] holds the integer part of [x]. *)
Definition nonneg_or_indefinite (z : Z) : Prop := 0 <= z \/ z = C.INT_MIN.

(** Whether [(int) x] is a conversion that C defines: [x] is a number
    whose integer part is a value of [int]. *)
Definition converts (x : float) : bool :=
  match C.trunc_SF (Prim2SF x) with
  | Some z => C.in_int z
  | None => false
  end.

(** The windows of the specification's formulas for row [i] of the
    answer to the tile query, whose columns are, from 0: the pixels, the
    width, the height, the pixel type, the nodata value, the scale along
    x, the scale along y, the upper left x, the upper left y. *)
Definition row_windows (h : Host) (d : DS.t) (T : list float) (r : PGresult)
    (i : nat) : Spec.windows :=
  Spec.tile_windows (DS.xmin d) (DS.ymax d) (at_ T 1) (at_ T 5)
    (atof h (PQgetvalue r i 7)) (atof h (PQgetvalue r i 8))
    (atof h (PQgetvalue r i 5)) (atof h (PQgetvalue r i 6))
    (atoi h (PQgetvalue r i 1)) (atoi h (PQgetvalue r i 2)).

(** The first [n] characters of a string, in lower case: all that
    [strncasecmp(s, _, n)] reads of [s]. *)
Fixpoint folded (n : nat) (s : string) : string :=
  match n, s with
  | S n', String c s' => String (C.tolower c) (folded n' s')
  | _, _ => EmptyString
  end.

(** A warning of the application class, as the loop over the tiles
    reports them. *)
Definition is_warning (e : CPLErr * CPLErrorNum * string) : Prop :=
  fst (fst e) = CE_Warning /\ snd (fst e) = CPLE_AppDefined.

(** A double that is a number: neither an infinity nor NaN. *)
Definition is_number (x : float) : bool :=
  match Prim2SF x with
  | S754_zero _ | S754_finite _ _ _ => true
  | _ => false
  end.

(** A zero of either sign. *)
Definition sf_zero (x : spec_float) : Prop :=
  match x with S754_zero _ => True | _ => False end.

(** * Properties *)

(** ** The pixel type classifier *)

Lemma tolower_NUL (c : ascii) : C.tolower c = C.NUL -> c = C.NUL.
Proof.
  destruct c as [[] [] [] [] [] [] [] []]; vm_compute; congruence.
Qed.

(** [EQUALN] against a text of [n] characters asks for that text as a
    prefix, letter case apart. *)
Lemma EQUALN_ci_prefix (p s : string) :
  nul_free p = true ->
  EQUALN s p (String.length p) = true <-> ci_prefix p s.
Proof.
  unfold EQUALN, nul_free. revert s.
  induction p as [|c p IH]; intros s Hp;
    cbn [C.strncasecmp_eq ci_prefix String.length].
  - tauto.
  - cbn [list_ascii_of_string forallb] in Hp.
    apply andb_true_iff in Hp. destruct Hp as [Hc Hp].
    apply negb_true_iff, Ascii.eqb_neq in Hc.
    assert (Hlow : C.tolower c <> C.NUL) by (intro E; apply Hc, tolower_NUL, E).
    destruct s as [|d s]; cbn [C.head C.tail].
    + change (C.tolower C.NUL) with C.NUL.
      destruct (Ascii.eqb_spec C.NUL (C.tolower c)) as [E|E].
      * symmetry in E. tauto.
      * split; [discriminate | tauto].
    + destruct (Ascii.eqb_spec (C.tolower d) (C.tolower c)) as [E|E].
      * destruct (Ascii.eqb_spec d C.NUL) as [E0|E0].
        -- subst d. symmetry in E. tauto.
        -- rewrite (IH s Hp). tauto.
      * split; [discriminate | tauto].
Qed.

(** Two texts that are prefixes of one tag agree, letter case apart, as
    far as both reach; the tags of the table do not. *)
Ltac split_prefix H :=
  repeat match type of H with
         | _ /\ _ => let H1 := fresh "Hc" in destruct H as [H1 H]
         end.

Ltac clash :=
  repeat match goal with
         | H : C.tolower ?a = _, H' : C.tolower ?a = _ |- _ =>
             rewrite H in H'; vm_compute in H'; first [discriminate H' | clear H']
         end.

Ltac excl_here H1 H2 :=
  cbn [ci_prefix] in H1, H2;
  first [ tauto | split_prefix H1; split_prefix H2; clash ].

Ltac excl tag H1 H2 :=
  do 5 (destruct tag as [|? tag]; [solve [excl_here H1 H2] | ]);
  excl_here H1 H2.

Ltac settle tag Hpre Hq :=
  unfold TranslateDataType; rewrite Hq; cbn [orb]; try reflexivity;
  repeat match goal with
         | |- context [EQUALN tag ?p ?n] =>
             let E := fresh "E" in
             destruct (EQUALN tag p n) eqn:E; cbn [orb];
             [ first [ reflexivity
                     | exfalso; apply (EQUALN_ci_prefix p tag eq_refl) in E;
                       clear Hq; excl tag Hpre E ]
             | try reflexivity ]
         end.

Lemma TranslateDataType_prefix (tag t : string) (ty : GDALDataType) :
  In (t, ty) pixel_type_tags -> ci_prefix t tag -> TranslateDataType tag = ty.
Proof.
  intros Hin Hpre. simpl in Hin.
  repeat (destruct Hin as [Hin|Hin];
          [ injection Hin as <- <-;
            match type of Hpre with
            | ci_prefix ?p _ =>
                assert (Hq := proj2 (EQUALN_ci_prefix p tag eq_refl) Hpre)
            end;
            cbn [String.length] in Hq;
            settle tag Hpre Hq
          | ]).
  contradiction.
Qed.

(** C5 (as amended): each of the eleven tags gets its type, and so does
    every tag that starts, letter case apart, with one of them; the
    unknown type is the answer exactly for the tags that start with none
    of the eleven. *)
Theorem TranslateDataType_tags (tag : string) :
  (forall t ty, In (t, ty) pixel_type_tags -> TranslateDataType t = ty) /\
  (forall t ty, In (t, ty) pixel_type_tags -> ci_prefix t tag ->
                TranslateDataType tag = ty) /\
  (TranslateDataType tag = GDT_Unknown <->
   forall t ty, In (t, ty) pixel_type_tags -> ~ ci_prefix t tag).
Proof.
  split; [| split; [| split]].
  - intros t ty Hin. simpl in Hin.
    repeat (destruct Hin as [Hin|Hin]; [injection Hin as <- <-; reflexivity|]).
    contradiction.
  - intros t ty. apply TranslateDataType_prefix.
  - intros Hu t ty Hin Hpre.
    rewrite (TranslateDataType_prefix tag t ty Hin Hpre) in Hu. subst ty.
    simpl in Hin.
    repeat (destruct Hin as [Hin|Hin]; [discriminate Hin|]).
    contradiction.
  - intros Hno. unfold TranslateDataType.
    repeat match goal with
           | |- context [EQUALN tag ?p ?n] =>
               let E := fresh "E" in
               destruct (EQUALN tag p n) eqn:E;
               [ exfalso; apply (EQUALN_ci_prefix p tag eq_refl) in E;
                 revert E; eapply Hno; simpl; tauto
               | cbn [orb] ]
           end.
    reflexivity.
Qed.

(** C5, as it was stated, fails: a tag that is none of the eleven is
    given a type when it starts with one of them. *)
Lemma TranslateDataType_longer_tag :
  ~ recognized_tag "8BUIX" /\ TranslateDataType "8BUIX" = GDT_Byte /\
  ~ recognized_tag "16bsi" /\ TranslateDataType "16bsi" = GDT_Int16.
Proof.
  unfold recognized_tag. simpl.
  repeat split; try reflexivity; intuition discriminate.
Qed.

(** ** Doubles *)

(** *** Addition commutes *)

Lemma SFadd_comm (x y : spec_float) : SF64add x y = SF64add y x.
Proof.
  unfold SF64add, SFadd.
  destruct x as [sx|sx| |sx mx ex], y as [sy|sy| |sy my ey];
    try reflexivity; try (destruct sx, sy; reflexivity).
  rewrite (Z.min_comm ex ey), Z.add_comm. reflexivity.
Qed.

Lemma add_comm (x y : float) : (x + y = y + x)%float.
Proof.
  apply Prim2SF_inj. rewrite !add_spec. apply SFadd_comm.
Qed.

(** *** Signs *)

Lemma sf_plus_nonneg x : sf_plus x -> sf_nonneg x.
Proof. destruct x; simpl; auto. Qed.

Lemma binary_round_aux_sign m e l :
  sf_plus (binary_round_aux prec emax false m e l).
Proof.
  unfold binary_round_aux.
  destruct (shr_fexp prec emax m e l) as [mrs e1].
  destruct (shr_fexp prec emax _ e1 loc_Exact) as [mrs2 e2].
  destruct (shr_m mrs2); cbn [sf_plus]; auto.
  destruct (e2 <=? emax - prec); cbn [sf_plus]; auto.
Qed.

Lemma binary_round_sign m e : sf_plus (binary_round prec emax false m e).
Proof.
  unfold binary_round.
  destruct (shl_align m e _) as [mz ez]. apply binary_round_aux_sign.
Qed.

Lemma binary_normalize_sign z e : 0 <= z -> sf_plus (binary_normalize prec emax z e false).
Proof.
  intros Hz. destruct z as [|p|p]; simpl.
  - reflexivity.
  - apply binary_round_sign.
  - lia.
Qed.

Lemma digits2_bounds m :
  2 ^ (Zpos (digits2_pos m) - 1) <= Zpos m < 2 ^ Zpos (digits2_pos m).
Proof.
  induction m as [m IH|m IH|]; cbn [digits2_pos].
  - rewrite Pos2Z.inj_succ.
    replace (Z.succ (Zpos (digits2_pos m)) - 1) with (Z.succ (Zpos (digits2_pos m) - 1)) by lia.
    rewrite !Z.pow_succ_r by lia. lia.
  - rewrite Pos2Z.inj_succ.
    replace (Z.succ (Zpos (digits2_pos m)) - 1) with (Z.succ (Zpos (digits2_pos m) - 1)) by lia.
    rewrite !Z.pow_succ_r by lia. lia.
  - simpl. lia.
Qed.

Lemma iter_xO_val m d : Zpos (Pos.iter xO m d) = Zpos m * 2 ^ Zpos d.
Proof.
  change (Pos.iter xO m d) with (shift_pos d m).
  rewrite shift_pos_correct, Zpower_pos_nat, Zpower_nat_Z, positive_nat_Z. lia.
Qed.

Lemma shl_align_val m e e' :
  e' <= e -> Zpos (fst (shl_align m e e')) = Zpos m * 2 ^ (e - e').
Proof.
  intros He. unfold shl_align.
  destruct (e' - e) as [|d|d] eqn:E.
  - replace (e - e') with 0 by lia. simpl. lia.
  - lia.
  - cbn [fst]. rewrite iter_xO_val. f_equal. f_equal. lia.
Qed.

Lemma bounded_inv m e :
  bounded prec emax m e = true ->
  emin <= e /\ Zpos (digits2_pos m) <= prec /\ (emin < e -> Zpos (digits2_pos m) = prec).
Proof.
  unfold bounded, canonical_mantissa, fexp, SpecFloat.emin, prec, emax.
  intros H. apply andb_true_iff in H. destruct H as [H _].
  apply Z.eqb_eq in H. lia.
Qed.

(** Among canonical mantissas the exponent decides the order. *)
Lemma align_lt m1 e1 m2 e2 :
  bounded prec emax m1 e1 = true -> bounded prec emax m2 e2 = true ->
  e1 < e2 ->
  Zpos (fst (shl_align m1 e1 (Z.min e1 e2))) < Zpos (fst (shl_align m2 e2 (Z.min e1 e2))).
Proof.
  intros B1 B2 He.
  apply bounded_inv in B1, B2. destruct B1 as (L1 & D1 & _), B2 as (_ & _ & D2).
  rewrite !shl_align_val by lia. rewrite Z.min_l by lia.
  replace (e1 - e1) with 0 by lia. rewrite Z.pow_0_r, Z.mul_1_r.
  pose proof (digits2_bounds m1) as [_ U1].
  pose proof (digits2_bounds m2) as [L2 _].
  rewrite D2 in L2 by lia.
  assert (Zpos m1 < 2 ^ prec).
  { eapply Z.lt_le_trans; [exact U1|]. apply Z.pow_le_mono_r; lia. }
  assert (2 ^ 1 <= 2 ^ (e2 - e1)) by (apply Z.pow_le_mono_r; lia).
  change (2 ^ prec) with (2 ^ (prec - 1) * 2 ^ 1) in H.
  nia.
Qed.

Lemma align_eq m1 m2 e :
  Zpos (fst (shl_align m1 e (Z.min e e))) = Zpos m1 /\
  Zpos (fst (shl_align m2 e (Z.min e e))) = Zpos m2.
Proof.
  rewrite !shl_align_val by lia. rewrite Z.min_id, Z.sub_diag. simpl. lia.
Qed.

Lemma SFsub_nonneg x y :
  valid_binary x = true -> valid_binary y = true ->
  SFcompare x y <> Some Lt ->
  sf_nonneg (SF64sub x y).
Proof.
  unfold SF64sub, SFsub.
  destruct x as [sx|sx| |sx mx ex], y as [sy|sy| |sy my ey]; intros Vx Vy Hc;
    cbn [SFcompare] in Hc;
    try solve [cbn [sf_nonneg]; tauto];
    try solve [destruct sx; cbn [sf_nonneg negb] in *; congruence];
    try solve [destruct sy; cbn [sf_nonneg negb] in *; congruence];
    try solve [destruct sx, sy; cbn [sf_nonneg negb] in *; first [tauto | congruence]].
  cbn [valid_binary] in Vx, Vy.
  apply sf_plus_nonneg, binary_normalize_sign.
  destruct sx, sy; cbn [cond_Zopp]; try congruence; try lia.
  - (* both negative *)
    destruct (Z.compare_spec ex ey) as [E|E|E]; try congruence.
    + subst ey. destruct (align_eq mx my ex) as [-> ->].
      rewrite Pos.compare_cont_spec in Hc. cbn in Hc.
      destruct (Pos.compare_spec mx my); cbn in Hc; try congruence; lia.
    + pose proof (align_lt mx ex my ey Vx Vy E). lia.
  - (* both positive *)
    destruct (Z.compare_spec ex ey) as [E|E|E]; try congruence.
    + subst ey. destruct (align_eq mx my ex) as [-> ->].
      rewrite Pos.compare_cont_spec in Hc. cbn in Hc.
      destruct (Pos.compare_spec mx my); cbn in Hc; try congruence; lia.
    + pose proof (align_lt my ey mx ex Vy Vx E) as H.
      rewrite (Z.min_comm ey ex) in H. lia.
Qed.

Lemma SFcompare_Lt_Gt x y : SFcompare x y = Some Lt -> SFcompare y x <> Some Lt.
Proof.
  destruct x as [sx|sx| |sx mx ex], y as [sy|sy| |sy my ey]; cbn;
    try congruence; try (destruct sx; congruence); try (destruct sy; congruence);
    try (destruct sx, sy; congruence).
  destruct sx, sy; try congruence;
    rewrite (Z.compare_antisym ex ey);
    destruct (ex ?= ey); cbn; try congruence;
    rewrite !Pos.compare_cont_spec; cbn;
    rewrite (Pos.compare_antisym mx my); destruct (mx ?= my)%positive; cbn; congruence.
Qed.

Lemma SFdiv_nonneg x y : sf_nonneg x -> sf_plus y -> sf_nonneg (SF64div x y).
Proof.
  unfold SF64div, SFdiv.
  destruct x as [sx|sx| |sx mx ex], y as [sy|sy| |sy my ey];
    cbn [sf_nonneg sf_plus]; intros Hx Hy; subst; cbn [xorb sf_nonneg]; auto.
  - destruct (SFdiv_core_binary prec emax (Z.pos mx) ex (Z.pos my) ey) as [[mz ez] lz].
    apply sf_plus_nonneg, binary_round_aux_sign.
Qed.

Lemma SFabs_plus x : sf_plus (SFabs x).
Proof. destruct x; cbn; auto. Qed.

Lemma SFltb_zero_plus y : SFltb (S754_zero false) y = true -> sf_plus y.
Proof.
  unfold SFltb. destruct y as [s|s| |s m e]; cbn; try discriminate; auto;
    destruct s; auto; discriminate.
Qed.

Lemma Prim2SF_half : Prim2SF 0.5 = SFhalf.
Proof. reflexivity. Qed.

Lemma SFadd_half_plus x : sf_nonneg x -> sf_plus (SF64add x SFhalf).
Proof.
  unfold SF64add, SFadd, SFhalf.
  destruct x as [sx|sx| |sx mx ex]; cbn [sf_nonneg sf_plus]; intros Hx; subst; auto.
  cbn [cond_Zopp]. apply binary_normalize_sign. lia.
Qed.

Lemma cast_int_plus (x : float) :
  sf_plus (Prim2SF x) -> 0 <= C.cast_int x \/ C.cast_int x = C.INT_MIN.
Proof.
  unfold C.cast_int, C.trunc_SF.
  destruct (Prim2SF x) as [s|s| |s m e]; cbn [sf_plus]; intros Hs; subst; auto.
  - left. reflexivity.
  - destruct (C.in_int _); auto. left.
    destruct (Z.leb_spec 0 e).
    + apply Z.mul_nonneg_nonneg; [lia | apply Z.pow_nonneg; lia].
    + apply Z.div_pos; [lia |]. apply Z.pow_pos_nonneg; lia.
Qed.

(** The rounded quotient of a difference [a - b] with [a] not below [b]
    by a quantity whose sign bit is clear. *)
Lemma rounded_quotient_nonneg (a b c : float) :
  SFcompare (Prim2SF a) (Prim2SF b) <> Some Lt ->
  sf_plus (Prim2SF c) ->
  nonneg_or_indefinite (C.cast_int ((a - b) / c + 0.5)%float).
Proof.
  intros Hab Hc. apply cast_int_plus.
  rewrite add_spec, div_spec, sub_spec, Prim2SF_half.
  apply SFadd_half_plus, SFdiv_nonneg; [|exact Hc].
  apply SFsub_nonneg; auto using Prim2SF_valid.
Qed.

(** *** The quotient of two ints *)

Lemma Zdigits2_unique (m k : Z) :
  2 ^ (k - 1) <= m < 2 ^ k -> 0 < k -> Zdigits2 m = k.
Proof.
  intros [L U] Hk.
  assert (0 < m) by (pose proof (Z.pow_pos_nonneg 2 (k - 1)); lia).
  destruct m as [|p|p]; try lia. cbn [Zdigits2].
  pose proof (digits2_bounds p) as [L' U'].
  set (d := Zpos (digits2_pos p)) in *.
  destruct (Z.lt_trichotomy d k) as [Hd|[Hd|Hd]]; [|exact Hd|].
  - assert (2 ^ d <= 2 ^ (k - 1)) by (apply Z.pow_le_mono_r; lia). lia.
  - assert (2 ^ k <= 2 ^ (d - 1)) by (apply Z.pow_le_mono_r; lia). lia.
Qed.

Lemma shl_align_exp m e e' : e' <= e -> snd (shl_align m e e') = e'.
Proof.
  intros He. unfold shl_align.
  destruct (e' - e) as [|d|d] eqn:E; cbn [snd]; lia.
Qed.

Lemma shr_fexp_53 m e l :
  Zdigits2 m = 53 -> emin <= e ->
  shr_fexp prec emax m e l = (shr_record_of_loc m l, e).
Proof.
  intros Hd He. unfold shr_fexp, fexp. rewrite Hd.
  unfold SpecFloat.emin, prec, emax in *.
  replace (Z.max (53 + e - 53) (3 - 1024 - 53) - e) with 0 by lia.
  reflexivity.
Qed.

Lemma shr_fexp_54 m e l :
  Zdigits2 m = 54 -> emin <= e + 1 ->
  shr_fexp prec emax m e l = (shr_1 (shr_record_of_loc m l), e + 1).
Proof.
  intros Hd He. unfold shr_fexp, fexp. rewrite Hd.
  unfold SpecFloat.emin, prec, emax in *.
  replace (Z.max (54 + e - 53) (3 - 1024 - 53) - e) with 1 by lia.
  reflexivity.
Qed.

Lemma shr_1_m (m : Z) (l : location) :
  0 <= m -> shr_m (shr_1 (shr_record_of_loc m l)) = m / 2.
Proof.
  intros Hm.
  assert (E : shr_m (shr_1 (shr_record_of_loc m l)) = Z.div2 m).
  { destruct l as [|[]], m as [|[p|p|]|p]; try reflexivity; lia. }
  rewrite E. apply Z.div2_div.
Qed.

Lemma round_nearest_even_range m l :
  m <= round_nearest_even m l <= m + 1.
Proof.
  destruct l as [|[]]; cbn [round_nearest_even]; try destruct (Z.even m); lia.
Qed.

Lemma shr_record_m m l : shr_m (shr_record_of_loc m l) = m.
Proof. destruct l as [|[]]; reflexivity. Qed.

(** Rounding a mantissa that is already canonical changes nothing. *)
Lemma binary_round_aux_exact (s : bool) (m : positive) (e : Z) :
  Zpos (digits2_pos m) = 53 -> emin <= e <= emax - prec ->
  binary_round_aux prec emax s (Zpos m) e loc_Exact = S754_finite s m e.
Proof.
  intros Hd He. unfold binary_round_aux.
  rewrite shr_fexp_53 by (cbn [Zdigits2]; lia).
  cbn [shr_record_of_loc shr_m loc_of_shr_record round_nearest_even].
  rewrite shr_fexp_53 by (cbn [Zdigits2]; lia).
  cbn [shr_record_of_loc shr_m].
  destruct (Z.leb_spec e (emax - prec)); [reflexivity | lia].
Qed.

Lemma shr_1_exact (q : Z) :
  0 < q -> q mod 2 = 0 ->
  loc_of_shr_record (shr_1 (shr_record_of_loc q loc_Exact)) = loc_Exact.
Proof.
  intros Hq Hm. destruct q as [|[p|p|]|p]; try lia; try reflexivity.
  - rewrite Pos2Z.inj_xI in Hm. 
    replace (2 * Zpos p + 1) with (1 + Zpos p * 2) in Hm by lia.
    rewrite Z.mod_add in Hm by lia. discriminate Hm.
  - discriminate Hm.
Qed.

(** Rounding a quotient of 53 or 54 digits: at most one digit is dropped,
    the last place may be rounded up, and a carry drops one digit more.
    An exact quotient whose dropped digit is 0 is not rounded at all. *)
Lemma binary_round_aux_quotient (s : bool) (q e : Z) (l : location) :
  2 ^ 52 <= q < 2 ^ 54 -> emin <= e -> e + 2 <= emax - prec ->
  exists (m3 : positive) (n n' : Z),
    binary_round_aux prec emax s q e l = S754_finite s m3 (e + n + n') /\
    0 <= n <= 1 /\ 0 <= n' <= 1 /\
    q / 2 ^ n <= Zpos m3 * 2 ^ n' <= q / 2 ^ n + 1 /\
    (l = loc_Exact -> q mod 2 ^ n = 0 -> Zpos m3 * 2 ^ n' = q / 2 ^ n).
Proof.
  intros Hq He He'. unfold binary_round_aux.
  (* the first shift *)
  assert (exists n mrs, shr_fexp prec emax q e l = (mrs, e + n) /\ 0 <= n <= 1 /\
                        shr_m mrs = q / 2 ^ n /\ 2 ^ 52 <= q / 2 ^ n < 2 ^ 53 /\
                        (l = loc_Exact -> q mod 2 ^ n = 0 ->
                         loc_of_shr_record mrs = loc_Exact))
    as (n & mrs & -> & Hn & Hm & Hr & Hex).
  { destruct (Z.lt_ge_cases q (2 ^ 53)) as [Hs|Hs].
    - exists 0, (shr_record_of_loc q l).
      rewrite shr_fexp_53 by (try apply Zdigits2_unique; lia).
      rewrite shr_record_m, Z.add_0_r, Z.pow_0_r, Z.div_1_r.
      repeat split; try lia. intros -> _. reflexivity.
    - exists 1, (shr_1 (shr_record_of_loc q l)).
      rewrite shr_fexp_54 by (try apply Zdigits2_unique; lia).
      rewrite shr_1_m by lia. change (2 ^ 1) with 2.
      repeat split; try lia.
      + apply Z.div_le_lower_bound; lia.
      + apply Z.div_lt_upper_bound; lia.
      + intros -> Hmod. apply shr_1_exact; lia. }
  set (m1 := q / 2 ^ n) in *. rewrite Hm.
  pose proof (round_nearest_even_range m1 (loc_of_shr_record mrs)) as Hm2.
  assert (Hex2 : l = loc_Exact -> q mod 2 ^ n = 0 ->
                 round_nearest_even m1 (loc_of_shr_record mrs) = m1).
  { intros Hl Hmod. rewrite (Hex Hl Hmod). reflexivity. }
  set (m2 := round_nearest_even m1 (loc_of_shr_record mrs)) in *.
  (* the second shift *)
  destruct (Z.lt_ge_cases m2 (2 ^ 53)) as [Hs|Hs].
  - rewrite shr_fexp_53 by (try apply Zdigits2_unique; lia).
    rewrite shr_record_m.
    destruct m2 as [|p|p] eqn:E; try lia.
    destruct (Z.leb_spec (e + n) (emax - prec)); [|lia].
    exists p, n, 0. rewrite Z.add_0_r, Z.pow_0_r, Z.mul_1_r.
    repeat split; try lia. intros Hl Hmod. apply Hex2; assumption.
  - assert (E : m2 = 2 ^ 53) by lia. rewrite E.
    rewrite shr_fexp_54 by (try apply Zdigits2_unique; lia).
    rewrite shr_1_m by lia.
    change (2 ^ 53 / 2) with (Zpos (2 ^ 52)).
    destruct (Z.leb_spec (e + n + 1) (emax - prec)); [|lia].
    exists (2 ^ 52)%positive, n, 1. repeat split; try lia.
    intros Hl Hmod. specialize (Hex2 Hl Hmod). lia.
Qed.

Lemma digits_le (p : positive) (k : Z) :
  Zpos p < 2 ^ k -> 0 <= k -> Zpos (digits2_pos p) <= k.
Proof.
  intros Hp Hk. pose proof (digits2_bounds p) as [L _].
  destruct (Z.le_gt_cases (Zpos (digits2_pos p)) k) as [|H]; [assumption|].
  assert (2 ^ k <= 2 ^ (Zpos (digits2_pos p) - 1)) by (apply Z.pow_le_mono_r; lia).
  lia.
Qed.

(** [(double) p] for a positive [p] below 2^53: the mantissa is [p]
    shifted up to 53 digits. *)
Lemma of_int_pos (p : positive) :
  Zpos p < 2 ^ 53 ->
  exists m : positive,
    Prim2SF (C.of_int (Zpos p)) = S754_finite false m (Zpos (digits2_pos p) - 53) /\
    Zpos m = Zpos p * 2 ^ (53 - Zpos (digits2_pos p)) /\
    Zpos (digits2_pos m) = 53.
Proof.
  intros Hp. pose proof (digits_le p 53 Hp ltac:(lia)) as Hd.
  pose proof (digits2_bounds p) as [L U].
  set (d := Zpos (digits2_pos p)) in *.
  assert (0 < d) by (unfold d; lia).
  cbn [C.of_int]. rewrite of_uint63_spec, of_Z_spec.
  rewrite Z.mod_small by (unfold wB, size; cbn; lia).
  cbn [binary_normalize]. unfold binary_round. fold d.
  replace (fexp prec emax (d + 0)) with (d - 53)
    by (unfold fexp, SpecFloat.emin, prec, emax; lia).
  pose proof (shl_align_val p 0 (d - 53) ltac:(lia)) as Hv.
  pose proof (shl_align_exp p 0 (d - 53) ltac:(lia)) as He.
  destruct (shl_align p 0 (d - 53)) as [mz ez]. cbn [fst snd] in Hv, He. subst ez.
  replace (0 - (d - 53)) with (53 - d) in Hv by lia.
  assert (Hmz : 2 ^ 52 <= Zpos mz < 2 ^ 53).
  { rewrite Hv.
    replace (2 ^ 52) with (2 ^ (d - 1) * 2 ^ (53 - d))
      by (rewrite <- Z.pow_add_r by lia; f_equal; lia).
    replace (2 ^ 53) with (2 ^ d * 2 ^ (53 - d))
      by (rewrite <- Z.pow_add_r by lia; f_equal; lia).
    assert (0 < 2 ^ (53 - d)) by (apply Z.pow_pos_nonneg; lia).
    split; [apply Z.mul_le_mono_nonneg_r | apply Z.mul_lt_mono_pos_r]; lia. }
  assert (Hdz : Zpos (digits2_pos mz) = 53)
    by (apply (Zdigits2_unique (Zpos mz) 53); lia).
  exists mz. split; [|split; assumption].
  apply binary_round_aux_exact; [assumption|].
  unfold SpecFloat.emin, prec, emax. lia.
Qed.

Lemma Prim2SF_of_int_0 : Prim2SF (C.of_int 0) = S754_zero false.
Proof. reflexivity. Qed.

Lemma SFdiv_core_normal (ma mb : positive) (ea eb : Z) :
  Zpos (digits2_pos ma) = 53 -> Zpos (digits2_pos mb) = 53 ->
  emin <= ea - eb - 53 ->
  SFdiv_core_binary prec emax (Zpos ma) ea (Zpos mb) eb
  = (Zpos ma * 2 ^ 53 / Zpos mb, ea - eb - 53,
     new_location (Zpos mb) ((Zpos ma * 2 ^ 53) mod Zpos mb)).
Proof.
  intros Da Db He. unfold SFdiv_core_binary. cbn [Zdigits2]. rewrite Da, Db.
  cbv zeta.
  replace (Z.min (fexp prec emax (53 + ea - (53 + eb))) (ea - eb)) with (ea - eb - 53)
    by (unfold fexp, SpecFloat.emin, prec, emax in *; lia).
  replace (ea - eb - (ea - eb - 53)) with 53 by lia.
  rewrite Z.shiftl_mul_pow2 by lia.
  unfold Z.div, Z.modulo.
  destruct (Z.div_eucl (Zpos ma * 2 ^ 53) (Zpos mb)) as [q r]. reflexivity.
Qed.

Lemma new_location_exact (m : Z) : new_location m 0 = loc_Exact.
Proof.
  unfold new_location, new_location_even, new_location_odd.
  destruct (Z.even m); reflexivity.
Qed.

(** [(double) z] for a [z] other than 0 and below 2^53 in magnitude: the
    sign of [z], and the magnitude shifted up to 53 digits. *)
Lemma of_int_signed (s : bool) (p : positive) :
  Zpos p < 2 ^ 53 ->
  exists m : positive,
    Prim2SF (C.of_int (signed s p)) = S754_finite s m (Zpos (digits2_pos p) - 53) /\
    Zpos m = Zpos p * 2 ^ (53 - Zpos (digits2_pos p)) /\
    Zpos (digits2_pos m) = 53.
Proof.
  intros Hp. destruct (of_int_pos p Hp) as (m & HSF & Hm & Hd).
  exists m. split; [|split; assumption].
  destruct s; cbn [signed]; [|exact HSF].
  change (C.of_int (Zneg p)) with (- C.of_int (Zpos p))%float.
  rewrite opp_spec, HSF. reflexivity.
Qed.

(** [(int) (double) z] gives [z] back. *)
Lemma cast_of_int (z : Z) : C.INT_MIN <= z <= C.INT_MAX -> C.cast_int (C.of_int z) = z.
Proof.
  intros Hz. unfold C.INT_MIN, C.INT_MAX in Hz.
  assert (exists s p, z = signed s p \/ z = 0) as (s & p & [->| ->]).
  { destruct z as [|p|p]; [exists false, 1%positive | exists false, p | exists true, p]; auto. }
  2: reflexivity.
  assert (Hp : Zpos p < 2 ^ 32) by (destruct s; cbn [signed] in Hz; lia).
  destruct (of_int_signed s p) as (m & HSF & Hm & _); [lia|].
  pose proof (digits_le p 32 Hp ltac:(lia)) as Hd.
  unfold C.cast_int. rewrite HSF. cbn [C.trunc_SF].
  set (d := Zpos (digits2_pos p)) in *.
  destruct (Z.leb_spec 0 (d - 53)); [lia|].
  replace (- (d - 53)) with (53 - d) by lia.
  rewrite Hm, Z.div_mul by (apply Z.pow_nonzero; lia).
  unfold C.in_int, C.INT_MIN, C.INT_MAX in *.
  destruct s; cbn [signed] in *.
  - destruct (Z.leb_spec (- 2 ^ 31) (- Zpos p)); [|lia].
    destruct (Z.leb_spec (- Zpos p) (2 ^ 31 - 1)); [reflexivity|lia].
  - destruct (Z.leb_spec (- 2 ^ 31) (Zpos p)); [|lia].
    destruct (Z.leb_spec (Zpos p) (2 ^ 31 - 1)); [reflexivity|lia].
Qed.

(** The integer arithmetic behind the quotient: a mantissa [m3] that lies,
    [n'] places up, within one of the integer quotient of [a * 2 ^ K] by
    [b * 2 ^ n] lies between [a / b] and its successor once scaled by its
    [K - n - n'] fraction digits. *)
Lemma quotient_bounds (a b K n n' m3 : Z) :
  0 < a -> 0 < b -> 0 <= n -> 0 <= n' -> n + n' < K ->
  b * 2 ^ n < 2 ^ K ->
  (a * 2 ^ K / b) / 2 ^ n <= m3 * 2 ^ n' <= (a * 2 ^ K / b) / 2 ^ n + 1 ->
  a / b * 2 ^ (K - n - n') <= m3 < (a / b + 1) * 2 ^ (K - n - n') /\
  (a mod b <> 0 -> a / b * 2 ^ (K - n - n') < m3) /\
  (a mod b = 0 -> m3 * 2 ^ n' = (a * 2 ^ K / b) / 2 ^ n ->
   m3 = a / b * 2 ^ (K - n - n')).
Proof.
  intros Ha Hb Hn Hn' HK Hsmall [L U].
  pose proof (Z.div_mod a b ltac:(lia)) as Hdm.
  pose proof (Z.mod_pos_bound a b Hb) as Hr.
  set (Q := a / b) in *. set (r := a mod b) in *.
  set (q := a * 2 ^ K / b) in *. set (m1 := q / 2 ^ n) in *.
  set (J := K - n - n').
  assert (HN : 0 < 2 ^ n) by (apply Z.pow_pos_nonneg; lia).
  assert (HN' : 0 < 2 ^ n') by (apply Z.pow_pos_nonneg; lia).
  assert (HW : 0 < 2 ^ J) by (apply Z.pow_pos_nonneg; unfold J; lia).
  assert (HK2 : 2 ^ K = 2 ^ J * 2 ^ n' * 2 ^ n).
  { rewrite <- !Z.pow_add_r by (unfold J; lia). f_equal. unfold J. lia. }
  pose proof (Z.mul_div_le (a * 2 ^ K) b Hb) as Hq1.
  pose proof (Z.mul_succ_div_gt (a * 2 ^ K) b Hb) as Hq2.
  pose proof (Z.mul_div_le q (2 ^ n) HN) as Hm1.
  pose proof (Z.mul_succ_div_gt q (2 ^ n) HN) as Hm2.
  fold q in Hq1, Hq2. fold m1 in Hm1, Hm2.
  set (W := 2 ^ J) in *. set (N := 2 ^ n) in *. set (N' := 2 ^ n') in *.
  set (P := 2 ^ K) in *.
  assert (Hlow : Q * W * N' <= m1).
  { assert (Q * P < (q + 1)) by nia.
    assert (Q * W * N' * N < (m1 + 1) * N) by nia.
    nia. }
  assert (Hup : m1 + 1 < (Q + 1) * W * N').
  { assert ((m1 + 1) * N * b < (Q + 1) * P * b) by nia.
    assert ((m1 + 1) * N < (Q + 1) * W * N' * N) by nia.
    nia. }
  split; [split; nia|]. split.
  - intros Hr0.
    assert (Q * W * N' + 1 <= m1).
    { assert (b * (Q * P + N) <= a * P) by nia.
      assert (Q * P + N <= q) by nia.
      assert ((Q * W * N' + 1) * N < (m1 + 1) * N) by nia.
      nia. }
    nia.
  - intros Hr0 Hex.
    assert (q = Q * P) by nia.
    assert (m1 = Q * W * N') by nia.
    nia.
Qed.

(** [(int) floor((double) a / b)] is the integer quotient, rounded down. *)
Lemma floor_quotient (a b : Z) :
  C.INT_MIN <= a <= C.INT_MAX -> 0 < b <= C.INT_MAX ->
  C.cast_int (C.floor (C.of_int a / C.of_int b)) = a / b.
Proof.
  intros Ha Hb.
  assert (Hrange : C.INT_MIN <= a / b <= C.INT_MAX).
  { unfold C.INT_MIN, C.INT_MAX in *. split.
    - apply Z.div_le_lower_bound; nia.
    - apply Z.lt_succ_r, Z.div_lt_upper_bound; nia. }
  unfold C.INT_MIN, C.INT_MAX in Ha, Hb.
  destruct b as [|pb|pb]; try lia.
  destruct (of_int_pos pb) as (mb & HSFb & Hmb & Hdb); [lia|].
  pose proof (digits_le pb 31 ltac:(lia) ltac:(lia)) as Hdb31.
  pose proof (digits2_bounds pb) as [Lb Ub].
  set (db := Zpos (digits2_pos pb)) in *.
  assert (0 < db) by (unfold db; lia).
  assert (exists s pa, a = signed s pa \/ a = 0) as (s & pa & [->| ->]).
  { destruct a as [|p|p]; [exists false, 1%positive | exists false, p | exists true, p]; auto. }
  2:{ (* 0 / b *)
    assert (HSF : Prim2SF (C.of_int 0 / C.of_int (Zpos pb)) = S754_zero false).
    { rewrite div_spec, Prim2SF_of_int_0, HSFb. reflexivity. }
    unfold C.floor, C.cast_int. rewrite HSF. cbn [C.floor_SF]. rewrite HSF.
    reflexivity. }
  assert (Hpa : Zpos pa < 2 ^ 32) by (destruct s; cbn [signed] in Ha; lia).
  destruct (of_int_signed s pa) as (ma & HSFa & Hma & Hda); [lia|].
  pose proof (digits_le pa 32 ltac:(lia) ltac:(lia)) as Hda32.
  pose proof (digits2_bounds pa) as [La Ua].
  set (da := Zpos (digits2_pos pa)) in *.
  assert (0 < da) by (unfold da; lia).
  set (K := 53 + db - da).
  assert (Hca : 0 < 2 ^ (53 - da)) by (apply Z.pow_pos_nonneg; lia).
  assert (Hcb : 0 < 2 ^ (53 - db)) by (apply Z.pow_pos_nonneg; lia).
  (* the quotient of the mantissas *)
  assert (Hnum : Zpos ma * 2 ^ 53 = Zpos pa * 2 ^ K * 2 ^ (53 - db)).
  { rewrite Hma, <- !Z.mul_assoc, <- !Z.pow_add_r by (unfold K; lia).
    f_equal. f_equal. unfold K. lia. }
  assert (Hq : Zpos ma * 2 ^ 53 / Zpos mb = Zpos pa * 2 ^ K / Zpos pb).
  { rewrite Hnum, Hmb. apply Z.div_mul_cancel_r; lia. }
  pose proof (digits2_bounds ma) as [Lma Uma]. rewrite Hda in Lma, Uma.
  pose proof (digits2_bounds mb) as [Lmb Umb]. rewrite Hdb in Lmb, Umb.
  change (53 - 1) with 52 in *.
  assert (Hq54 : 2 ^ 52 <= Zpos ma * 2 ^ 53 / Zpos mb < 2 ^ 54).
  { split.
    - apply Z.div_le_lower_bound; [lia|]. nia.
    - apply Z.div_lt_upper_bound; [lia|]. nia. }
  destruct (binary_round_aux_quotient s
              (Zpos ma * 2 ^ 53 / Zpos mb) (da - 53 - (db - 53) - 53)
              (new_location (Zpos mb) ((Zpos ma * 2 ^ 53) mod Zpos mb)))
    as (m3 & n & n' & HR & Hn & Hn' & Hm3 & Hexact);
    [ exact Hq54
    | unfold SpecFloat.emin, prec, emax; lia
    | unfold SpecFloat.emin, prec, emax; lia | ].
  assert (HSF : Prim2SF (C.of_int (signed s pa) / C.of_int (Zpos pb))
                = S754_finite s m3 (- (K - n - n'))).
  { rewrite div_spec, HSFa, HSFb. unfold SF64div, SFdiv.
    rewrite SFdiv_core_normal
      by (try assumption; unfold SpecFloat.emin, prec, emax; lia).
    rewrite xorb_false_r, HR. f_equal. unfold K. lia. }
  assert (Hsmall : Zpos pb * 2 ^ n < 2 ^ K).
  { apply Z.lt_le_trans with (2 ^ db * 2 ^ n).
    - apply Z.mul_lt_mono_pos_r; [apply Z.pow_pos_nonneg; lia | lia].
    - rewrite <- Z.pow_add_r by lia. apply Z.pow_le_mono_r; unfold K; lia. }
  rewrite Hq in Hm3, Hexact.
  destruct (quotient_bounds (Zpos pa) (Zpos pb) K n n' (Zpos m3)
              ltac:(lia) ltac:(lia) ltac:(lia) ltac:(lia) ltac:(unfold K; lia)
              Hsmall Hm3)
    as ([Blo Bhi] & Bstrict & Bexact).
  set (J := K - n - n') in *.
  assert (HW : 0 < 2 ^ J) by (apply Z.pow_pos_nonneg; unfold J, K; lia).
  set (W := 2 ^ J) in *. set (Q := Zpos pa / Zpos pb) in *.
  unfold C.floor. rewrite HSF. cbn [C.floor_SF].
  destruct (Z.leb_spec 0 (- J)); [unfold J, K in *; lia|].
  rewrite Z.opp_involutive. fold W.
  assert (Hz : (if s then - ((Zpos m3 + W - 1) / W) else Zpos m3 / W)
               = signed s pa / Zpos pb).
  { destruct s; cbn [signed].
    - (* a negative numerator: both sides round away from zero *)
      pose proof (Z.div_mod (Zpos pa) (Zpos pb) ltac:(lia)) as Hdm.
      pose proof (Z.mod_pos_bound (Zpos pa) (Zpos pb) ltac:(lia)) as Hr.
      fold Q in Hdm.
      destruct (Z.eq_dec (Zpos pa mod Zpos pb) 0) as [Hr0|Hr0].
      + assert (Em : Zpos m3 = Q * W).
        { apply Bexact; [exact Hr0|]. apply Hexact.
          - rewrite Hnum, Hmb.
            replace (Zpos pa * 2 ^ K * 2 ^ (53 - db))
              with (Q * 2 ^ K * (Zpos pb * 2 ^ (53 - db))) by nia.
            rewrite Z.mod_mul by lia. apply new_location_exact.
          - replace (Zpos pa) with (Q * Zpos pb) by lia.
            rewrite <- Z.mul_assoc, (Z.mul_comm (Zpos pb)), Z.mul_assoc,
              Z.div_mul by lia.
            replace (2 ^ K) with (2 ^ (K - n) * 2 ^ n)
              by (rewrite <- Z.pow_add_r by (unfold K; lia); f_equal; lia).
            rewrite Z.mul_assoc. apply Z.mod_mul.
            apply Z.pow_nonzero; lia. }
        rewrite Em.
        replace ((Q * W + W - 1) / W) with Q
          by (apply Z.div_unique with (W - 1); lia).
        apply Z.div_unique with 0; lia.
      + specialize (Bstrict Hr0).
        replace ((Zpos m3 + W - 1) / W) with (Q + 1)
          by (apply Z.div_unique with (Zpos m3 - 1 - Q * W); lia).
        apply Z.div_unique with (Zpos pb - Zpos pa mod Zpos pb); lia.
    - symmetry. apply Z.div_unique with (Zpos m3 - Q * W); lia. }
  rewrite Hz. apply cast_of_int. exact Hrange.
Qed.

(** ** The constructor *)

Section Constructor.

Variables DX DY : Z.
Variable h : Host.

Lemma MIN_min (a b : Z) : C.MIN a b = Z.min a b.
Proof.
  unfold C.MIN. destruct (Z.ltb_spec a b); lia.
Qed.

(** What the constructor has set in the band it returns, whichever way
    it went through the overviews. *)
Lemma constructor_fields fuel d nB ty hasnd nd sb bits nFactor bx by_ off w b w' :
  PostGISRasterRasterBand DX DY h fuel d nB ty hasnd nd sb bits nFactor bx by_ off w
    = Some (b, w') ->
  poDS b = d /\ nBand b = nB /\ eDataType b = ty /\
  nOverviewFactor b = nFactor /\
  nBlockXSize b = fst (block_size DX DY d bx by_) /\
  nBlockYSize b = snd (block_size DX DY d bx by_).
Proof.
  destruct fuel; cbn [PostGISRasterRasterBand];
    repeat match goal with
           | |- context [if ?c then _ else _] => destruct c
           | |- context [match ?c with _ => _ end] => destruct c
           end;
    intros E; try discriminate E; injection E as <- <-; cbn; auto 10.
Qed.

Lemma for_rows_total {A : Type} (f : nat -> World -> option (A * World)) k i w :
  (forall j w', exists a w'', f j w' = Some (a, w'')) ->
  exists l w', for_rows f k i w = Some (l, w').
Proof.
  intros Hf. revert i w. induction k as [|k IH]; intros i w; cbn [for_rows].
  - eauto.
  - destruct (Hf i w) as (a & w1 & ->).
    destruct (IH (S i) w1) as (l & w2 & ->). eauto.
Qed.

(** The constructor returns, with one level of nesting to spare, when no
    row of the overview catalog carries the factor 0. *)
Lemma constructor_returns fuel d nB ty hasnd nd sb bits nFactor bx by_ off w :
  (forall r i, PQexec h (overview_catalog_command d) = Some r ->
               atoi h (PQgetvalue r i 1) <> 0) ->
  exists b w',
    PostGISRasterRasterBand DX DY h (S fuel) d nB ty hasnd nd sb bits nFactor bx by_ off w
    = Some (b, w').
Proof.
  intros Hatoi. cbn [PostGISRasterRasterBand].
  destruct (nFactor =? 0); [|eauto].
  destruct (PQexec h _) as [r|] eqn:Er; [|eauto].
  destruct (is_tuples_ok _ && _); [|eauto].
  destruct (VSICalloc h _); [|eauto].
  match goal with
  | |- context [for_rows ?f ?k ?i ?w0] =>
      destruct (for_rows_total f k i w0) as (l & w2 & ->); [|eauto]
  end.
  intros j w'. specialize (Hatoi r j eq_refl).
  apply Z.eqb_neq in Hatoi.
  destruct fuel; cbn [PostGISRasterRasterBand]; rewrite Hatoi; eauto.
Qed.

(** A band of level 0 has the raster of its dataset. *)
Lemma constructor_level0_raster fuel d nB ty hasnd nd sb bits bx by_ off w b w' :
  PostGISRasterRasterBand DX DY h fuel d nB ty hasnd nd sb bits 0 bx by_ off w
    = Some (b, w') ->
  nRasterXSize b = DS.nRasterXSize d /\ nRasterYSize b = DS.nRasterYSize d.
Proof.
  destruct fuel; cbn [PostGISRasterRasterBand Z.eqb];
    repeat match goal with
           | |- context [if ?c then _ else _] => destruct c
           | |- context [match ?c with _ => _ end] => destruct c
           end;
    intros E; try discriminate E; injection E as <- <-; split; reflexivity.
Qed.

End Constructor.

(** The example bands are the ones the constructor builds. *)
Lemma example_bands_constructed (t : GDALDataType) :
  Example.band_of
    (Example.host Example.catalog (Example.rows []) Example.overview_fails) t 0
  = Some (Example.base_band t,
          sent Example.world0 (overview_catalog_command Example.dataset)).
Proof.
  destruct t; vm_compute; reflexivity.
Qed.

(** C10 (as amended): on a dataset without regular blocking the block
    of a band is min(raster width of the dataset, default block width) by
    min(raster height of the dataset, default block height), so no larger
    than the raster of the dataset, which is the band's own raster on a
    band of level 0.  [GetBlockSize] reports that block, unless one of
    its sides is 0: then it reports 0 by 0 and a failure. *)
Theorem block_size_without_regular_blocking
    DX DY h fuel d nB ty hasnd nd sb bits nFactor bx by_ off w b w' :
  DS.bRegularBlocking d = false ->
  PostGISRasterRasterBand DX DY h fuel d nB ty hasnd nd sb bits nFactor bx by_ off w
    = Some (b, w') ->
  nBlockXSize b = Z.min (DS.nRasterXSize d) DX /\
  nBlockYSize b = Z.min (DS.nRasterYSize d) DY /\
  nBlockXSize b <= DS.nRasterXSize d /\
  nBlockYSize b <= DS.nRasterYSize d /\
  (nBlockXSize b <> 0 -> nBlockYSize b <> 0 ->
   forall w0, GetBlockSize b w0
              = ((Z.min (DS.nRasterXSize d) DX, Z.min (DS.nRasterYSize d) DY), w0)) /\
  (nBlockXSize b = 0 \/ nBlockYSize b = 0 ->
   forall w0, exists msg,
     GetBlockSize b w0 = ((0, 0), CPLError w0 CE_Failure CPLE_AppDefined msg)) /\
  (nFactor = 0 -> nBlockXSize b <= GetXSize b /\ nBlockYSize b <= GetYSize b).
Proof.
  intros Hreg Hnew.
  pose proof Hnew as Hnew'.
  apply constructor_fields in Hnew as (_ & _ & _ & _ & Hx & Hy).
  unfold block_size in Hx, Hy. rewrite Hreg in Hx, Hy. cbn [fst snd] in Hx, Hy.
  rewrite MIN_min in Hx, Hy.
  split; [exact Hx|]. split; [exact Hy|]. split; [lia|]. split; [lia|].
  split; [|split].
  - intros Hx0 Hy0 w0. unfold GetBlockSize.
    destruct (Z.eqb_spec (nBlockXSize b) 0); [contradiction|].
    destruct (Z.eqb_spec (nBlockYSize b) 0); [contradiction|].
    cbn [orb]. now rewrite Hx, Hy.
  - intros H0 w0. unfold GetBlockSize.
    destruct (Z.eqb_spec (nBlockXSize b) 0); [cbn [orb]; eauto|].
    destruct (Z.eqb_spec (nBlockYSize b) 0); [cbn [orb]; eauto|]. lia.
  - intros ->. apply constructor_level0_raster in Hnew' as [Rx Ry].
    unfold GetXSize, GetYSize. lia.
Qed.

Lemma block_size_without_regular_blocking_example :
  match Example.band_of
          (Example.host Example.catalog (Example.rows []) Example.overview_fails)
          GDT_Byte 0 with
  | Some (b, _) =>
      nBlockXSize b = Z.min (DS.nRasterXSize Example.dataset) 256 /\
      nBlockYSize b = Z.min (DS.nRasterYSize Example.dataset) 256 /\
      nBlockXSize b <= DS.nRasterXSize Example.dataset /\
      nBlockYSize b <= DS.nRasterYSize Example.dataset /\
      (nBlockXSize b <> 0 -> nBlockYSize b <> 0 ->
       forall w0, GetBlockSize b w0
                  = ((Z.min (DS.nRasterXSize Example.dataset) 256,
                      Z.min (DS.nRasterYSize Example.dataset) 256), w0)) /\
      (nBlockXSize b = 0 \/ nBlockYSize b = 0 ->
       forall w0, exists msg,
         GetBlockSize b w0 = ((0, 0), CPLError w0 CE_Failure CPLE_AppDefined msg)) /\
      (0 = 0 -> nBlockXSize b <= GetXSize b /\ nBlockYSize b <= GetYSize b)
  | None => False
  end.
Proof.
  destruct (Example.band_of _ GDT_Byte 0) as [[b w']|] eqn:E.
  - exact (block_size_without_regular_blocking
             256 256 _ 2 Example.dataset 1 GDT_Byte true 0%float false 8 0 0 0 false
             Example.world0 b w' eq_refl E).
  - vm_compute in E. discriminate E.
Defined.

(** The overview of factor 2 of the 4 by 4 dataset is a band of 2 by 2
    pixels whose block is 4 by 4. *)
Lemma block_exceeds_overview_raster :
  match Example.band_of Example.host_overview_fails GDT_Byte 2 with
  | Some (b, _) =>
      DS.bRegularBlocking (poDS b) = false /\
      GetXSize b = 2 /\ GetYSize b = 2 /\
      GetBlockSize b Example.world0 = ((4, 4), Example.world0) /\
      GetXSize b < nBlockXSize b /\ GetYSize b < nBlockYSize b
  | None => False
  end.
Proof.
  vm_compute. repeat split; reflexivity.
Qed.

(** ** The windowed read *)

Section Read.

Variable h : Host.

Local Open Scope string_scope.
Local Open Scope Z_scope.

(** C8: a call with the write flag returns a failure reported as "not
    supported", sends no command to the store and leaves the caller's
    buffer alone. *)
Theorem IRasterIO_write_not_supported (b : Band) (rq : Request) (w : World) :
  eRWFlag rq = GF_Write ->
  fst (IRasterIO h b rq w) = CE_Failure /\
  queries (snd (IRasterIO h b rq w)) = queries w /\
  pData (snd (IRasterIO h b rq w)) = pData w /\
  errors (snd (IRasterIO h b rq w))
  = (errors w ++ [(CE_Failure, CPLE_NotSupported,
                   "Writing through PostGIS Raster band not supported yet")])%list.
Proof.
  intros Hw. unfold IRasterIO. rewrite Hw. cbn. auto.
Qed.

(** The loop over the rows reports warnings and nothing else: the
    commands sent and the buffer stay as they are. *)
Lemma add_tile_frame d T r acc i :
  queries (snd (add_tile h d T r acc i)) = queries (snd acc) /\
  pData (snd (add_tile h d T r acc i)) = pData (snd acc).
Proof.
  destruct acc as [l w]. unfold add_tile.
  destruct (MEMDataset_Open h _); cbn [negb];
    [destruct (MEM_GetRasterBand h _); cbn [negb]|]; cbn; auto.
Qed.

Lemma install_sources_frame d T r w :
  queries (snd (install_sources h d T r w)) = queries w /\
  pData (snd (install_sources h d T r w)) = pData w.
Proof.
  unfold install_sources.
  change w with (snd (@nil SimpleSource, w)) at 2 4.
  generalize (@nil SimpleSource, w) as acc.
  induction (seq 0 (List.length (PQtuples r))) as [|i l IH]; intros acc.
  - cbn. auto.
  - cbn [fold_left]. destruct (IH (add_tile h d T r acc i)) as [Hq Hp].
    destruct (add_tile_frame d T r acc i) as [Hq' Hp'].
    rewrite Hq, Hp. auto.
Qed.

(** The level 0 path sends one command, the tile query. *)
Lemma read_tiles_queries (b : Band) (rq : Request) (w : World) :
  queries (snd (read_tiles h b rq w)) = (queries w ++ [sent_command h b rq])%list.
Proof.
  unfold read_tiles, sent_command.
  set (cmd := tile_query_command h _ _ _).
  destruct (PQexec h cmd) as [r|]; [|reflexivity].
  destruct (negb _ || _); [reflexivity|].
  destruct (PQntuples r =? 0); [reflexivity|].
  destruct (negb (CPLCalloc h _)); [reflexivity|].
  destruct (negb (VRTCreate h _ _)); [reflexivity|].
  destruct (install_sources h _ _ r (sent w cmd)) as [l w2] eqn:E.
  destruct (VRTRasterIO h _ rq (pData w2)) as [err buf].
  cbn. pose proof (install_sources_frame (poDS b) (DS.GetGeoTransform (poDS b)) r
                     (sent w cmd)) as [Hq _].
  rewrite E in Hq. exact Hq.
Qed.

(** The polygon of the command is [sent_polygon]. *)
Lemma sent_command_polygon (b : Band) (rq : Request) :
  sent_command h b rq
  = ((select_from (poDS b) (nBand b) ++ intersects h (poDS b) (sent_polygon b rq))
     ++ order_clause (poDS b))%string.
Proof. reflexivity. Qed.

Lemma IRasterIO_read (b : Band) (rq : Request) (w : World) :
  eRWFlag rq = GF_Read ->
  IRasterIO h b rq w
  = if wants_overview b rq then
      match OverviewRasterIO h b rq w with
      | (CE_None, w') => (CE_None, w')
      | (_, w') => read_tiles h b rq w'
      end
    else read_tiles h b rq w.
Proof.
  intros Hr. unfold IRasterIO. now rewrite Hr.
Qed.

(** C7: the tile query, the one command that the level 0 path of a read
    sends, ends in an ORDER BY on the upper left y, ascending for the
    SRID -1 and descending for any other, then on the upper left x,
    ascending. *)
Theorem tile_query_order (b : Band) (rq : Request) (w : World) :
  exists head : string,
    sent_command h b rq
    = (head ++ " ORDER BY ST_UpperLeftY(" ++ DS.pszColumn (poDS b) ++ ") "
            ++ (if (DS.nSrid (poDS b) =? -1)%Z then "asc" else "desc")
            ++ ", ST_UpperLeftX(" ++ DS.pszColumn (poDS b) ++ ") asc")%string /\
    queries (snd (read_tiles h b rq w)) = (queries w ++ [sent_command h b rq])%list /\
    (eRWFlag rq = GF_Read -> wants_overview b rq = false ->
     queries (snd (IRasterIO h b rq w)) = (queries w ++ [sent_command h b rq])%list).
Proof.
  eexists. split; [|split].
  - unfold sent_command, tile_query_command, order_clause, orderByY, orderByX.
    reflexivity.
  - apply read_tiles_queries.
  - intros Hr Hov. rewrite (IRasterIO_read b rq w Hr), Hov.
    apply read_tiles_queries.
Qed.

Lemma wants_overview_iff (b : Band) (rq : Request) :
  wants_overview b rq = true <->
  (nBufXSize rq < nXSize rq \/ nBufYSize rq < nYSize rq) /\ 0 < GetOverviewCount b.
Proof.
  unfold wants_overview.
  rewrite andb_true_iff, orb_true_iff, !Z.ltb_lt. tauto.
Qed.

(** C4 (as amended): a read into a buffer smaller than the window, on a
    band that has overviews, is handed to the overview read first.  When
    that read succeeds the call returns its result and the level 0 path
    is not entered; when it fails the call goes on with the level 0
    path. *)
Theorem overview_delegation (b : Band) (rq : Request) (w : World) :
  eRWFlag rq = GF_Read ->
  nBufXSize rq < nXSize rq \/ nBufYSize rq < nYSize rq ->
  0 < GetOverviewCount b ->
  (fst (OverviewRasterIO h b rq w) = CE_None ->
   IRasterIO h b rq w = (CE_None, snd (OverviewRasterIO h b rq w))) /\
  (fst (OverviewRasterIO h b rq w) <> CE_None ->
   IRasterIO h b rq w = read_tiles h b rq (snd (OverviewRasterIO h b rq w))).
Proof.
  intros Hr Hbuf Hov. rewrite (IRasterIO_read b rq w Hr).
  rewrite (proj2 (wants_overview_iff b rq) (conj Hbuf Hov)).
  destruct (OverviewRasterIO h b rq w) as [[] w']; cbn [fst snd];
    split; intros E; congruence.
Qed.

(** When the tile query comes back without rows, the level 0 path
    returns success and has added to the world the command it sent. *)
Lemma read_tiles_no_rows (b : Band) (rq : Request) (w : World) (r : PGresult) :
  PQexec h (sent_command h b rq) = Some r ->
  PQresultStatus r = PGRES_TUPLES_OK ->
  PQtuples r = [] ->
  read_tiles h b rq w = (CE_None, sent w (sent_command h b rq)).
Proof.
  intros Hq Hs Ht. unfold read_tiles. fold (sent_command h b rq).
  rewrite Hq. unfold PQntuples. rewrite Hs, Ht. reflexivity.
Qed.

(** C6 (as amended): a read whose tile query returns no row succeeds,
    and the level 0 path writes nothing: the caller's buffer is as it was
    before the call or, when an overview read was tried first and
    failed, as that read left it. *)
Theorem empty_result_is_no_op (b : Band) (rq : Request) (w : World) (r : PGresult) :
  eRWFlag rq = GF_Read ->
  PQexec h (sent_command h b rq) = Some r ->
  PQresultStatus r = PGRES_TUPLES_OK ->
  PQtuples r = [] ->
  (wants_overview b rq = false ->
   fst (IRasterIO h b rq w) = CE_None /\
   pData (snd (IRasterIO h b rq w)) = pData w) /\
  (wants_overview b rq = true ->
   fst (OverviewRasterIO h b rq w) <> CE_None ->
   fst (IRasterIO h b rq w) = CE_None /\
   pData (snd (IRasterIO h b rq w)) = pData (snd (OverviewRasterIO h b rq w))).
Proof.
  intros Hr Hq Hs Ht. rewrite (IRasterIO_read b rq w Hr).
  split; intros Hov.
  - rewrite Hov, (read_tiles_no_rows b rq w r Hq Hs Ht). auto.
  - rewrite Hov. intros Hfail.
    destruct (OverviewRasterIO h b rq w) as [e w'] eqn:E. cbn [fst snd] in *.
    rewrite (read_tiles_no_rows b rq w' r Hq Hs Ht).
    destruct e; try contradiction; auto.
Qed.

End Read.

Lemma IRasterIO_write_not_supported_example :
  fst (IRasterIO Example.host_overview_fails (Example.base_band GDT_Byte)
         (Example.write 0 0 4 4) Example.world0) = CE_Failure /\
  queries (snd (IRasterIO Example.host_overview_fails (Example.base_band GDT_Byte)
                  (Example.write 0 0 4 4) Example.world0))
  = queries Example.world0 /\
  pData (snd (IRasterIO Example.host_overview_fails (Example.base_band GDT_Byte)
                (Example.write 0 0 4 4) Example.world0))
  = pData Example.world0 /\
  errors (snd (IRasterIO Example.host_overview_fails (Example.base_band GDT_Byte)
                 (Example.write 0 0 4 4) Example.world0))
  = (errors Example.world0
     ++ [(CE_Failure, CPLE_NotSupported,
          "Writing through PostGIS Raster band not supported yet"%string)])%list.
Proof.
  exact (IRasterIO_write_not_supported Example.host_overview_fails
           (Example.base_band GDT_Byte) (Example.write 0 0 4 4) Example.world0 eq_refl).
Defined.

(** C4, as it was stated, fails: the buffer is smaller than the window and
    the band has an overview, yet the overview read fails and the call is
    answered by the level 0 path, which sends its tile query. *)
Lemma overview_failure_falls_back :
  nBufXSize (Example.read 0 0 4 4 2 2) < nXSize (Example.read 0 0 4 4 2 2) /\
  0 < GetOverviewCount (Example.base_band GDT_Byte) /\
  IRasterIO Example.host_overview_fails (Example.base_band GDT_Byte)
    (Example.read 0 0 4 4 2 2) Example.world0
  = read_tiles Example.host_overview_fails (Example.base_band GDT_Byte)
      (Example.read 0 0 4 4 2 2) Example.world0 /\
  queries (snd (IRasterIO Example.host_overview_fails (Example.base_band GDT_Byte)
                  (Example.read 0 0 4 4 2 2) Example.world0))
  = [sent_command Example.host_overview_fails (Example.base_band GDT_Byte)
       (Example.read 0 0 4 4 2 2)].
Proof.
  repeat split; vm_compute; reflexivity.
Qed.

Lemma overview_delegation_example :
  (fst (OverviewRasterIO Example.host_overview_succeeds (Example.base_band GDT_Byte)
          (Example.read 0 0 4 4 2 2) Example.world0) = CE_None ->
   IRasterIO Example.host_overview_succeeds (Example.base_band GDT_Byte)
     (Example.read 0 0 4 4 2 2) Example.world0
   = (CE_None,
      snd (OverviewRasterIO Example.host_overview_succeeds (Example.base_band GDT_Byte)
             (Example.read 0 0 4 4 2 2) Example.world0))) /\
  (fst (OverviewRasterIO Example.host_overview_succeeds (Example.base_band GDT_Byte)
          (Example.read 0 0 4 4 2 2) Example.world0) <> CE_None ->
   IRasterIO Example.host_overview_succeeds (Example.base_band GDT_Byte)
     (Example.read 0 0 4 4 2 2) Example.world0
   = read_tiles Example.host_overview_succeeds (Example.base_band GDT_Byte)
       (Example.read 0 0 4 4 2 2)
       (snd (OverviewRasterIO Example.host_overview_succeeds
               (Example.base_band GDT_Byte) (Example.read 0 0 4 4 2 2)
               Example.world0))).
Proof.
  apply (overview_delegation Example.host_overview_succeeds
           (Example.base_band GDT_Byte) (Example.read 0 0 4 4 2 2) Example.world0).
  - reflexivity.
  - left. vm_compute. reflexivity.
  - vm_compute. reflexivity.
Defined.

(** C6, as it was stated, fails: the tile query returns no row and the
    call succeeds, but the overview read that was tried first, and failed,
    has written into the caller's buffer. *)
Lemma empty_result_after_failed_overview :
  PQexec Example.host_overview_fails_midway
    (sent_command Example.host_overview_fails_midway (Example.base_band GDT_Byte)
       (Example.read 0 0 4 4 2 2))
  = Some {| PQresultStatus := PGRES_TUPLES_OK; PQtuples := [] |} /\
  fst (IRasterIO Example.host_overview_fails_midway (Example.base_band GDT_Byte)
         (Example.read 0 0 4 4 2 2) Example.world0) = CE_None /\
  pData Example.world0 = [Byte.xaa; Byte.xaa; Byte.xaa; Byte.xaa] /\
  pData (snd (IRasterIO Example.host_overview_fails_midway (Example.base_band GDT_Byte)
                (Example.read 0 0 4 4 2 2) Example.world0))
  = [Byte.x01; Byte.x01; Byte.x01; Byte.x01].
Proof.
  repeat split; vm_compute; reflexivity.
Qed.

Lemma empty_result_is_no_op_example :
  (wants_overview (Example.base_band GDT_Byte) (Example.read 0 0 4 4 4 4) = false ->
   fst (IRasterIO Example.host_overview_fails_midway (Example.base_band GDT_Byte)
          (Example.read 0 0 4 4 4 4) Example.world0) = CE_None /\
   pData (snd (IRasterIO Example.host_overview_fails_midway (Example.base_band GDT_Byte)
                 (Example.read 0 0 4 4 4 4) Example.world0))
   = pData Example.world0) /\
  (wants_overview (Example.base_band GDT_Byte) (Example.read 0 0 4 4 4 4) = true ->
   fst (OverviewRasterIO Example.host_overview_fails_midway (Example.base_band GDT_Byte)
          (Example.read 0 0 4 4 4 4) Example.world0) <> CE_None ->
   fst (IRasterIO Example.host_overview_fails_midway (Example.base_band GDT_Byte)
          (Example.read 0 0 4 4 4 4) Example.world0) = CE_None /\
   pData (snd (IRasterIO Example.host_overview_fails_midway (Example.base_band GDT_Byte)
                 (Example.read 0 0 4 4 4 4) Example.world0))
   = pData (snd (OverviewRasterIO Example.host_overview_fails_midway
                   (Example.base_band GDT_Byte) (Example.read 0 0 4 4 4 4)
                   Example.world0))).
Proof.
  apply (empty_result_is_no_op Example.host_overview_fails_midway
           (Example.base_band GDT_Byte) (Example.read 0 0 4 4 4 4) Example.world0
           {| PQresultStatus := PGRES_TUPLES_OK; PQtuples := [] |});
    vm_compute; reflexivity.
Defined.

(** ** Overview bands *)

(** C9: a band created with a decimation factor above 0 reports the band
    number 0, no dataset and no overviews, and its raster is
    floor(width / factor) by floor(height / factor) over the dataset's
    raster; the constructor returns it without a word to the store. *)
Theorem overview_band DX DY h fuel d nB ty hasnd nd sb bits nFactor bx by_ off w :
  0 < nFactor <= C.INT_MAX ->
  C.INT_MIN <= DS.nRasterXSize d <= C.INT_MAX ->
  C.INT_MIN <= DS.nRasterYSize d <= C.INT_MAX ->
  exists b : Band,
    PostGISRasterRasterBand DX DY h fuel d nB ty hasnd nd sb bits nFactor bx by_ off w
    = Some (b, w) /\
    GetBand b = 0 /\
    GetDataset b = None /\
    GetOverviewCount b = 0 /\
    papoOverviews b = None /\
    nRasterXSize b = DS.nRasterXSize d / nFactor /\
    nRasterYSize b = DS.nRasterYSize d / nFactor.
Proof.
  intros Hf Hx Hy.
  assert (E : (nFactor =? 0) = false) by (apply Z.eqb_neq; lia).
  eexists. split.
  - destruct fuel; cbn [PostGISRasterRasterBand]; rewrite E; reflexivity.
  - unfold GetBand, GetDataset, GetOverviewCount, DS.GetRasterXSize, DS.GetRasterYSize.
    cbn [nOverviewFactor papoOverviews nRasterXSize nRasterYSize].
    rewrite E, !floor_quotient by assumption. cbn [negb]. auto 10.
Qed.

Lemma overview_band_example :
  exists b : Band,
    Example.band_of Example.host_overview_fails GDT_Byte 2 = Some (b, Example.world0) /\
    GetBand b = 0 /\
    GetDataset b = None /\
    GetOverviewCount b = 0 /\
    papoOverviews b = None /\
    nRasterXSize b = DS.nRasterXSize Example.dataset / 2 /\
    nRasterYSize b = DS.nRasterYSize Example.dataset / 2.
Proof.
  apply (overview_band 256 256 Example.host_overview_fails 2 Example.dataset 1
           GDT_Byte true 0%float false 8 2 0 0 false Example.world0);
    unfold C.INT_MIN, C.INT_MAX; cbn; lia.
Defined.

(** ** The polygon of the tile query *)

Lemma wrap_small (z : Z) : C.INT_MIN <= z <= C.INT_MAX -> C.wrap z = z.
Proof.
  unfold C.wrap, C.INT_MIN, C.INT_MAX. intros Hz.
  rewrite Z.mod_small; lia.
Qed.

(** The polygon is closed: its fifth vertex is its first. *)
Lemma sent_polygon_closed (b : Band) (rq : Request) :
  nth_error (sent_polygon b rq) 4 = nth_error (sent_polygon b rq) 0.
Proof. reflexivity. Qed.

(** For a band of one byte per pixel the polygon is the pentagon over the
    corners of the window. *)
Lemma sent_polygon_one_byte (b : Band) (rq : Request) :
  GDALGetDataTypeSize (eDataType b) = 8 ->
  C.INT_MIN <= nXSize rq <= C.INT_MAX ->
  C.INT_MIN <= nYSize rq <= C.INT_MAX ->
  C.INT_MIN <= nXOff rq + nXSize rq <= C.INT_MAX ->
  C.INT_MIN <= nYOff rq + nYSize rq <= C.INT_MAX ->
  sent_polygon b rq
  = Spec.pentagon (DS.GetGeoTransform (poDS b))
      (nXOff rq) (nYOff rq) (nXSize rq) (nYSize rq).
Proof.
  intros Hs Hx Hy Hxx Hyy. unfold sent_polygon, window_corners. rewrite Hs.
  change (Z.quot 8 8) with 1. unfold C.add, C.mul.
  rewrite !Z.mul_1_r, (wrap_small (nXSize rq)), (wrap_small (nYSize rq)) by assumption.
  rewrite !wrap_small by assumption.
  reflexivity.
Qed.

(** C1: the claim fails on the code.  A band of two bytes per pixel asked
    for the window (0, 0, 1, 1) under the transform (0, 1, 0, 0, 0, -1)
    sends the pentagon over (0, 0) and (2, 2), the size of the window
    multiplied by the size of a pixel in bytes, where the corners of the
    window give the pentagon over (0, 0) and (1, 1). *)
Theorem polygon_scaled_by_pixel_size :
  sent_polygon (Example.base_band GDT_Int16) (Example.read 0 0 1 1 1 1)
  = [(0, 0); (2, 0); (2, -2); (0, -2); (0, 0)]%float /\
  Spec.pentagon (DS.GetGeoTransform (poDS (Example.base_band GDT_Int16))) 0 0 1 1
  = [(0, 0); (1, 0); (1, -1); (0, -1); (0, 0)]%float.
Proof.
  split; vm_compute; reflexivity.
Qed.

(** ** The windows of the tiles *)

Section Windows.

Variable h : Host.

(** The windows of the code are those of the specification's formulas. *)
Lemma simple_source_windows (d : DS.t) (T : list float) (t : Tile) (mem : MEMDataset) :
  windows_of (simple_source d T t mem)
  = Spec.tile_windows (DS.xmin d) (DS.ymax d) (at_ T 1) (at_ T 5)
      (dfTileUpperLeftX t) (dfTileUpperLeftY t) (dfTileScaleX t) (dfTileScaleY t)
      (nTileWidth t) (nTileHeight t).
Proof.
  unfold simple_source, Spec.tile_windows, Spec.round, windows_of, C.fabs.
  destruct (dfTileUpperLeftX t <? DS.xmin d)%float;
    destruct (DS.ymax d <? dfTileUpperLeftY t)%float;
    cbn [nSrcXOff nSrcYOff nDstXOff nDstYOff nDstXSize nDstYSize];
    rewrite ?(add_comm 0.5); reflexivity.
Qed.

(** The signs of the offsets of a source. *)
Lemma ltb_true_compare (a b : float) :
  (a <? b)%float = true -> SFcompare (Prim2SF b) (Prim2SF a) <> Some Lt.
Proof.
  rewrite ltb_spec. unfold SFltb.
  destruct (SFcompare (Prim2SF a) (Prim2SF b)) as [[]|] eqn:E; try discriminate.
  intros _. apply SFcompare_Lt_Gt, E.
Qed.

Lemma ltb_false_compare (a b : float) :
  (a <? b)%float = false -> SFcompare (Prim2SF a) (Prim2SF b) <> Some Lt.
Proof.
  rewrite ltb_spec. unfold SFltb. intros H E. rewrite E in H. discriminate.
Qed.

Lemma zero_ltb_plus (c : float) : (0 <? c)%float = true -> sf_plus (Prim2SF c).
Proof.
  rewrite ltb_spec. apply SFltb_zero_plus.
Qed.

Lemma fabs_plus (c : float) : sf_plus (Prim2SF (C.fabs c)).
Proof.
  unfold C.fabs. rewrite abs_spec. apply SFabs_plus.
Qed.

End Windows.

(** ** The block read *)

Section Blocks.

Variable h : Host.

Lemma IReadBlock_window (b : Band) (nBlockXOff nBlockYOff : Z) (w : World) :
  IReadBlock h b nBlockXOff nBlockYOff w
  = IRasterIO h b (block_window b nBlockXOff nBlockYOff) w.
Proof. reflexivity. Qed.

(** X1: a block read never goes through an overview and is never refused
    as a write: it asks for a buffer of the size of its window, so it is
    the level 0 path, the tile query and the composite, on the window of
    the block. *)
Theorem IReadBlock_level0 (b : Band) (nBlockXOff nBlockYOff : Z) (w : World) :
  IReadBlock h b nBlockXOff nBlockYOff w
  = read_tiles h b (block_window b nBlockXOff nBlockYOff) w /\
  nBufXSize (block_window b nBlockXOff nBlockYOff)
  = nXSize (block_window b nBlockXOff nBlockYOff) /\
  nBufYSize (block_window b nBlockXOff nBlockYOff)
  = nYSize (block_window b nBlockXOff nBlockYOff) /\
  wants_overview b (block_window b nBlockXOff nBlockYOff) = false.
Proof.
  assert (E : wants_overview b (block_window b nBlockXOff nBlockYOff) = false).
  { unfold wants_overview. cbn [block_window nBufXSize nXSize nBufYSize nYSize].
    now rewrite !Z.ltb_irrefl. }
  repeat split; try reflexivity; [|exact E].
  rewrite IReadBlock_window, IRasterIO_read by reflexivity. now rewrite E.
Qed.

(** X2: the window of a block read is the block clamped to the raster.
    For a block that starts inside the raster, with products that fit an
    int, the window starts at the block's first pixel, is as wide and as
    high as the block or, at the right and bottom edges, as what is left
    of the raster, is not empty and lies within the raster. *)
Theorem IReadBlock_clamped (b : Band) (nBlockXOff nBlockYOff : Z) :
  0 <= nBlockXOff -> 0 <= nBlockYOff ->
  0 < nBlockXSize b -> 0 < nBlockYSize b ->
  nBlockXOff * nBlockXSize b < GetXSize b <= C.INT_MAX ->
  nBlockYOff * nBlockYSize b < GetYSize b <= C.INT_MAX ->
  (nBlockXOff + 1) * nBlockXSize b <= C.INT_MAX ->
  (nBlockYOff + 1) * nBlockYSize b <= C.INT_MAX ->
  nXOff (block_window b nBlockXOff nBlockYOff) = nBlockXOff * nBlockXSize b /\
  nYOff (block_window b nBlockXOff nBlockYOff) = nBlockYOff * nBlockYSize b /\
  nXSize (block_window b nBlockXOff nBlockYOff)
  = Z.min (nBlockXSize b) (GetXSize b - nBlockXOff * nBlockXSize b) /\
  nYSize (block_window b nBlockXOff nBlockYOff)
  = Z.min (nBlockYSize b) (GetYSize b - nBlockYOff * nBlockYSize b) /\
  0 < nXSize (block_window b nBlockXOff nBlockYOff) /\
  0 < nYSize (block_window b nBlockXOff nBlockYOff) /\
  nXOff (block_window b nBlockXOff nBlockYOff)
  + nXSize (block_window b nBlockXOff nBlockYOff) <= GetXSize b /\
  nYOff (block_window b nBlockXOff nBlockYOff)
  + nYSize (block_window b nBlockXOff nBlockYOff) <= GetYSize b.
Proof.
  intros Hbx Hby Hsx Hsy Hx Hy Hox Hoy.
  unfold block_window. cbn [nXOff nYOff nXSize nYSize].
  unfold C.add, C.mul, C.sub.
  assert (I : C.INT_MIN < 0) by reflexivity.
  rewrite (wrap_small (nBlockXOff + 1)) by (unfold C.INT_MAX in *; nia).
  rewrite (wrap_small (nBlockYOff + 1)) by (unfold C.INT_MAX in *; nia).
  rewrite (wrap_small ((nBlockXOff + 1) * nBlockXSize b)) by nia.
  rewrite (wrap_small ((nBlockYOff + 1) * nBlockYSize b)) by nia.
  rewrite (wrap_small (nBlockXOff * nBlockXSize b)) by nia.
  rewrite (wrap_small (nBlockYOff * nBlockYSize b)) by nia.
  rewrite (wrap_small (GetXSize b - nBlockXOff * nBlockXSize b)) by nia.
  rewrite (wrap_small (GetYSize b - nBlockYOff * nBlockYSize b)) by nia.
  destruct (Z.ltb_spec (GetXSize b) ((nBlockXOff + 1) * nBlockXSize b));
    destruct (Z.ltb_spec (GetYSize b) ((nBlockYOff + 1) * nBlockYSize b));
    repeat split; lia.
Qed.

End Blocks.

(** The last block of a row of [Scenario.band_10] is 2 pixels wide; its
    first row of blocks is 4 pixels high. *)
Lemma IReadBlock_clamped_example :
  nXOff (block_window Scenario.band_10 2 0) = 8 /\
  nYOff (block_window Scenario.band_10 2 0) = 0 /\
  nXSize (block_window Scenario.band_10 2 0) = 2 /\
  nYSize (block_window Scenario.band_10 2 0) = 4.
Proof.
  destruct (IReadBlock_clamped Scenario.band_10 2 0) as (Hx & Hy & Hxs & Hys & _);
    [cbn; unfold C.INT_MAX; lia .. |].
  rewrite Hx, Hy, Hxs, Hys. cbn. auto.
Defined.

(** ** The nodata value *)

(** X3: [SetNoDataValue] always succeeds and stores the value, which
    [GetNoDataValue] then returns; the last value set is the one kept.
    Setting a value does not mark the band as having one: the flag that
    [GetNoDataValue] reports stays as the constructor set it.  The value
    plays no part in the block size, the overviews or the level 0 path of
    a read. *)
Theorem SetNoDataValue_GetNoDataValue (b : Band) (v : float) :
  fst (SetNoDataValue b v) = CE_None /\
  GetNoDataValue (snd (SetNoDataValue b v)) = (v, snd (GetNoDataValue b)) /\
  (forall v', snd (SetNoDataValue (snd (SetNoDataValue b v)) v')
              = snd (SetNoDataValue b v')) /\
  GetOverviewCount (snd (SetNoDataValue b v)) = GetOverviewCount b /\
  (forall i, GetOverview (snd (SetNoDataValue b v)) i = GetOverview b i) /\
  (forall w, GetBlockSize (snd (SetNoDataValue b v)) w = GetBlockSize b w) /\
  (forall h rq w, read_tiles h (snd (SetNoDataValue b v)) rq w = read_tiles h b rq w).
Proof.
  repeat split.
Qed.

(** ** The characters that the classifier reads *)

Lemma tolower_idem (c : ascii) : C.tolower (C.tolower c) = C.tolower c.
Proof.
  destruct c as [[] [] [] [] [] [] [] []]; vm_compute; reflexivity.
Qed.

Lemma tolower_is_NUL (c : ascii) :
  Ascii.eqb (C.tolower c) C.NUL = Ascii.eqb c C.NUL.
Proof.
  destruct c as [[] [] [] [] [] [] [] []]; vm_compute; reflexivity.
Qed.

Lemma strncasecmp_folded (n m : nat) (a b : string) :
  (n <= m)%nat ->
  C.strncasecmp_eq (folded m a) b n = C.strncasecmp_eq a b n.
Proof.
  revert m a b. induction n as [|n IH]; intros m a b Hm; [reflexivity|].
  destruct m as [|m]; [lia|].
  destruct a as [|c a]; [reflexivity|].
  cbn [folded C.strncasecmp_eq C.head C.tail].
  rewrite tolower_idem, tolower_is_NUL.
  rewrite IH by lia. reflexivity.
Qed.

Lemma TranslateDataType_folded (s : string) :
  TranslateDataType (folded 5 s) = TranslateDataType s.
Proof.
  unfold TranslateDataType, EQUALN.
  rewrite !strncasecmp_folded by lia. reflexivity.
Qed.

(** X4: the classifier reads no more than the first five characters of a
    pixel type, and those without regard to letter case: two texts that
    agree there, letter case apart, are given the same type. *)
Theorem TranslateDataType_five_characters (s t : string) :
  folded 5 s = folded 5 t -> TranslateDataType s = TranslateDataType t.
Proof.
  intros E. rewrite <- (TranslateDataType_folded s), <- (TranslateDataType_folded t).
  now rewrite E.
Qed.

Lemma TranslateDataType_five_characters_example :
  TranslateDataType "16bsi, signed" = TranslateDataType "16BSI".
Proof.
  apply TranslateDataType_five_characters. reflexivity.
Defined.

(** ** The overviews of a band of level 0 *)

Section Overviews.

Variables DX DY : Z.
Variable h : Host.

(** What the constructor copies from its arguments into the band. *)
Lemma constructor_copies fuel d nB ty hasnd nd sb bits nFactor bx by_ off w b w' :
  PostGISRasterRasterBand DX DY h fuel d nB ty hasnd nd sb bits nFactor bx by_ off w
  = Some (b, w') ->
  bHasNoDataValue b = hasnd /\ dfNoDataValue b = nd /\
  metadata b = image_structure sb bits /\ bIsOffline b = off /\
  eAccess b = DS.GetAccess d.
Proof.
  destruct fuel; cbn [PostGISRasterRasterBand];
    repeat match goal with
           | |- context [if ?c then _ else _] => destruct c
           | |- context [match ?c with _ => _ end] => destruct c
           end;
    intros E; try discriminate E; injection E as <- <-; cbn; auto 10.
Qed.

(** A band of an overview level: what the constructor returns for a
    factor other than 0, and that it leaves the world as it is. *)
Lemma constructor_overview_level fuel d nB ty hasnd nd sb bits nFactor bx by_ off w :
  nFactor <> 0 ->
  exists b,
    PostGISRasterRasterBand DX DY h fuel d nB ty hasnd nd sb bits nFactor bx by_ off w
    = Some (b, w) /\
    nOverviewCount b = 0 /\ papoOverviews b = None.
Proof.
  intros Hf. apply Z.eqb_neq in Hf.
  destruct fuel; cbn [PostGISRasterRasterBand]; rewrite Hf; eauto.
Qed.

Lemma for_rows_pure {A : Type} (f : nat -> World -> option (A * World))
    (P : nat -> A -> Prop) k i w :
  (forall j w', (i <= j < i + k)%nat -> exists a, f j w' = Some (a, w') /\ P j a) ->
  exists l,
    for_rows f k i w = Some (l, w) /\ List.length l = k /\
    forall j, (j < k)%nat -> exists a, nth_error l j = Some a /\ P (i + j)%nat a.
Proof.
  revert i. induction k as [|k IH]; intros i Hf; cbn [for_rows].
  - exists []. repeat split; auto. intros j Hj. lia.
  - destruct (Hf i w ltac:(lia)) as (a & -> & Pa).
    destruct (IH (S i)) as (l & -> & Hl & Hnth).
    { intros j w' Hj. apply Hf. lia. }
    exists (a :: l). repeat split; [cbn; lia|].
    intros [|j] Hj; cbn [nth_error].
    + exists a. rewrite Nat.add_0_r. auto.
    + destruct (Hnth j ltac:(lia)) as (a' & E & Pa').
      exists a'. rewrite <- plus_n_Sm. auto.
Qed.

Lemma for_rows_In {A : Type} (f : nat -> World -> option (A * World)) k i w l w' a :
  for_rows f k i w = Some (l, w') -> In a l ->
  exists j w1 w2, f j w1 = Some (a, w2).
Proof.
  revert i w l. induction k as [|k IH]; intros i w l; cbn [for_rows].
  - intros E. injection E as <- <-. intros [].
  - destruct (f i w) as [[a0 w1]|] eqn:Ef; [|discriminate].
    destruct (for_rows f k (S i) w1) as [[l1 w2]|] eqn:Er; [|discriminate].
    intros E. injection E as <- <-. intros [<- | Hin]; eauto.
Qed.

Lemma for_rows_None {A : Type} (f : nat -> World -> option (A * World)) k i j w :
  (i <= j < i + k)%nat -> (forall w', f j w' = None) -> for_rows f k i w = None.
Proof.
  revert i w. induction k as [|k IH]; intros i w Hj Hf; [lia|].
  cbn [for_rows]. destruct (Nat.eq_dec i j) as [->|Hij].
  - now rewrite Hf.
  - destruct (f i w) as [[a w1]|]; [|reflexivity].
    rewrite IH; [reflexivity|lia|exact Hf].
Qed.

Lemma rows_positive (r : PGresult) : PQtuples r <> [] -> 0 < PQntuples r.
Proof.
  unfold PQntuples. destruct (PQtuples r); [congruence|cbn [List.length]; lia].
Qed.

(** X5: when the store does not answer the overview catalog, answers
    with a status other than PGRES_TUPLES_OK or with no row, the
    constructor still returns a band of level 0, having sent the one
    command and reported no error.  The band has no overviews (every
    [GetOverview] is the base class's), the raster size of the dataset,
    its own band number and its dataset. *)
Theorem level0_band_without_overviews fuel d nB ty hasnd nd sb bits bx by_ off w :
  (PQexec h (overview_catalog_command d) = None \/
   exists r, PQexec h (overview_catalog_command d) = Some r /\
     (PQresultStatus r <> PGRES_TUPLES_OK \/ PQtuples r = [])) ->
  exists b,
    PostGISRasterRasterBand DX DY h fuel d nB ty hasnd nd sb bits 0 bx by_ off w
    = Some (b, sent w (overview_catalog_command d)) /\
    GetOverviewCount b = 0 /\
    (forall i, GetOverview b i = BaseOverview i) /\
    GetXSize b = DS.nRasterXSize d /\ GetYSize b = DS.nRasterYSize d /\
    GetBand b = nB /\ GetDataset b = Some d /\ HasArbitraryOverviews b = true.
Proof.
  intros H.
  assert (G : forall i, (if (0 <=? i) && (i <? 0) then InvalidOverview else BaseOverview i)
                        = BaseOverview i).
  { intros i. destruct (Z.leb_spec 0 i), (Z.ltb_spec i 0); cbn [andb]; auto; lia. }
  assert (E : match PQexec h (overview_catalog_command d) with
              | Some r => is_tuples_ok (PQresultStatus r) && (0 <? PQntuples r)
              | None => false
              end = false).
  { destruct H as [-> | (r & -> & [H | H])]; [reflexivity| |].
    - destruct (PQresultStatus r); try contradiction; reflexivity.
    - unfold PQntuples. rewrite H. apply andb_false_r. }
  destruct fuel; cbn [PostGISRasterRasterBand Z.eqb];
    destruct (PQexec h (overview_catalog_command d)); try rewrite E.
  all: eexists; split; [reflexivity|].
  all: unfold GetOverview, GetOverviewCount, GetXSize, GetYSize, GetBand, GetDataset,
         HasArbitraryOverviews;
       cbn [nOverviewFactor nOverviewCount papoOverviews nRasterXSize nRasterYSize
            nBand poDS Z.eqb negb];
       repeat split; auto.
Qed.

(** X6: when the overview catalog answers with rows, the array for the
    overviews is allocated and no row carries the factor 0, the
    constructor returns a band of level 0 with one overview per row, in
    the order of the rows, having sent the one command and reported no
    error.  [GetOverview(i)] is the overview of row [i]: its factor is the
    second column of the row as [atoi] reads it; it has the dataset, the
    band number, the type, the block size, the nodata value and the
    metadata of the band; it has no overviews of its own, and reports the
    band number 0 and no dataset. *)
Theorem level0_band_overviews fuel d nB ty hasnd nd sb bits bx by_ off w r :
  PQexec h (overview_catalog_command d) = Some r ->
  PQresultStatus r = PGRES_TUPLES_OK ->
  PQtuples r <> [] ->
  VSICalloc h (PQntuples r) = true ->
  (forall i, (i < List.length (PQtuples r))%nat -> atoi h (PQgetvalue r i 1) <> 0) ->
  exists b,
    PostGISRasterRasterBand DX DY h (S fuel) d nB ty hasnd nd sb bits 0 bx by_ off w
    = Some (b, sent w (overview_catalog_command d)) /\
    GetOverviewCount b = PQntuples r /\
    forall i, (i < List.length (PQtuples r))%nat ->
      exists ov,
        GetOverview b (Z.of_nat i) = OwnOverview ov /\
        nOverviewFactor ov = atoi h (PQgetvalue r i 1) /\
        poDS ov = d /\ nBand ov = nB /\ eDataType ov = ty /\
        nBlockXSize ov = nBlockXSize b /\ nBlockYSize ov = nBlockYSize b /\
        GetNoDataValue ov = GetNoDataValue b /\
        metadata ov = metadata b /\
        GetOverviewCount ov = 0 /\ GetBand ov = 0 /\ GetDataset ov = None.
Proof.
  intros Hq Hs Ht Hc Hf. pose proof (rows_positive r Ht) as Hn.
  cbn [PostGISRasterRasterBand]. rewrite Z.eqb_refl, Hq, Hs.
  cbn [is_tuples_ok andb]. destruct (Z.ltb_spec 0 (PQntuples r)); [|lia]. rewrite Hc.
  match goal with
  | |- context [for_rows ?f ?k ?i ?w0] =>
      destruct (for_rows_pure f
                  (fun j ov =>
                     nOverviewFactor ov = atoi h (PQgetvalue r j 1) /\
                     poDS ov = d /\ nBand ov = nB /\ eDataType ov = ty /\
                     nBlockXSize ov = fst (block_size DX DY d bx by_) /\
                     nBlockYSize ov = snd (block_size DX DY d bx by_) /\
                     GetNoDataValue ov = (nd, hasnd) /\
                     metadata ov = image_structure sb bits)
                  k i w0) as (ovs & -> & Hlen & Hnth)
  end.
  { intros j w' Hj.
    destruct (constructor_overview_level fuel d nB ty hasnd nd sb bits
                (atoi h (PQgetvalue r j 1)) bx by_ off w')
      as (ov & E & _); [apply Hf; lia|].
    exists ov. split; [exact E|].
    pose proof (constructor_fields DX DY h _ _ _ _ _ _ _ _ _ _ _ _ _ _ _ E)
      as (? & ? & ? & ? & ? & ?).
    pose proof (constructor_copies _ _ _ _ _ _ _ _ _ _ _ _ _ _ _ E)
      as (Hh & Hd & ? & _).
    unfold GetNoDataValue. rewrite Hh, Hd. auto 10. }
  eexists. split; [reflexivity|].
  split; [reflexivity|].
  intros i Hi.
  destruct (Hnth i Hi) as (ov & E & Hfac & Hds & HnB & Hty & Hx & Hy & Hnd & Hmd).
  exists ov. unfold GetOverview, GetOverviewCount.
  cbn [nOverviewFactor nOverviewCount papoOverviews Z.eqb negb
       nBlockXSize nBlockYSize metadata].
  unfold PQntuples.
  destruct (Z.leb_spec 0 (Z.of_nat i)); [|lia].
  destruct (Z.ltb_spec (Z.of_nat i) (Z.of_nat (List.length (PQtuples r)))); [|lia].
  cbn [andb]. rewrite Nat2Z.id, E.
  assert (Hnz : nOverviewFactor ov <> 0) by (rewrite Hfac; auto).
  unfold GetBand, GetDataset.
  destruct (Z.eqb_spec (nOverviewFactor ov) 0); [contradiction|].
  cbn [negb]. repeat split; auto.
Qed.

(** X7: when the array for the overviews cannot be allocated, the
    constructor reports a warning of the class CPLE_OutOfMemory and
    returns.  The band it leaves still counts the rows of the catalog as
    its overviews but holds no array: [GetOverview] of every index below
    the count reads through the null array, and a read into a buffer
    smaller than its window is still handed to the overview read. *)
Theorem overview_array_not_allocated fuel d nB ty hasnd nd sb bits bx by_ off w r :
  PQexec h (overview_catalog_command d) = Some r ->
  PQresultStatus r = PGRES_TUPLES_OK ->
  PQtuples r <> [] ->
  VSICalloc h (PQntuples r) = false ->
  exists b msg,
    PostGISRasterRasterBand DX DY h fuel d nB ty hasnd nd sb bits 0 bx by_ off w
    = Some (b, CPLError (sent w (overview_catalog_command d))
                 CE_Warning CPLE_OutOfMemory msg) /\
    GetOverviewCount b = PQntuples r /\
    papoOverviews b = None /\
    (forall i, 0 <= i < PQntuples r -> GetOverview b i = InvalidOverview) /\
    (forall rq, nBufXSize rq < nXSize rq \/ nBufYSize rq < nYSize rq ->
                wants_overview b rq = true).
Proof.
  intros Hq Hs Ht Hc. pose proof (rows_positive r Ht) as Hn.
  assert (E : is_tuples_ok (PQresultStatus r) && (0 <? PQntuples r) = true).
  { rewrite Hs. cbn [is_tuples_ok andb]. now apply Z.ltb_lt. }
  destruct fuel; cbn [PostGISRasterRasterBand Z.eqb]; rewrite Hq, E, Hc.
  all: eexists; eexists; split; [reflexivity|].
  all: split; [reflexivity|]; split; [reflexivity|]; split.
  all: try (intros i Hi; unfold GetOverview, GetOverviewCount;
            cbn [nOverviewFactor nOverviewCount papoOverviews Z.eqb negb];
            destruct (Z.leb_spec 0 i); [|lia];
            destruct (Z.ltb_spec i (PQntuples r)); [|lia]; reflexivity).
  all: intros rq Hrq; apply wants_overview_iff; split; [exact Hrq|exact Hn].
Qed.

(** What the constructor has set in the overviews of the band it
    returns. *)
Lemma constructor_overviews fuel d nB ty hasnd nd sb bits nFactor bx by_ off w b w' ovs ov :
  PostGISRasterRasterBand DX DY h fuel d nB ty hasnd nd sb bits nFactor bx by_ off w
  = Some (b, w') ->
  papoOverviews b = Some ovs -> In ov ovs ->
  poDS ov = d /\ nBand ov = nB /\ eDataType ov = ty.
Proof.
  destruct fuel; cbn [PostGISRasterRasterBand];
    repeat match goal with
           | |- context [if ?c then _ else _] => destruct c
           | |- context [match PQexec ?a ?b with _ => _ end] => destruct (PQexec a b)
           end;
    try (intros E; try discriminate E; injection E as <- <-; cbn; discriminate).
  destruct (for_rows _ _ _ _) as [[l w2]|] eqn:Er; [|discriminate].
  intros E. injection E as <- <-. cbn [papoOverviews].
  intros E Hin. injection E as <-.
  destruct (for_rows_In _ _ _ _ _ _ _ Er Hin) as (j & w1 & w3 & Ej).
  apply constructor_fields in Ej as (? & ? & ? & _). auto.
Qed.

(** X8: an overview of a band sends, for any window, the very command
    that the band itself would send: the tile query of an overview names
    the table of the dataset, not the overview table of the catalog, and
    carries the polygon of the window at the dataset's transform. *)
Theorem overview_sends_base_command
    fuel d nB ty hasnd nd sb bits nFactor bx by_ off w b w' ovs ov :
  PostGISRasterRasterBand DX DY h fuel d nB ty hasnd nd sb bits nFactor bx by_ off w
  = Some (b, w') ->
  papoOverviews b = Some ovs -> In ov ovs ->
  forall rq, sent_command h ov rq = sent_command h b rq.
Proof.
  intros Hnew Hovs Hin rq.
  destruct (constructor_overviews _ _ _ _ _ _ _ _ _ _ _ _ _ _ _ _ _ Hnew Hovs Hin)
    as (Hd & HnB & Hty).
  apply constructor_fields in Hnew as (Hd' & HnB' & Hty' & _).
  unfold sent_command. now rewrite Hd, HnB, Hty, Hd', HnB', Hty'.
Qed.

(** X9: the metadata of a band are items of the IMAGE_STRUCTURE domain
    only: PIXELTYPE=SIGNEDBYTE exactly when the band was created as signed
    byte, and NBITS, with the bit depth in decimal, exactly when the bit
    depth is below 8. *)
Theorem constructor_metadata fuel d nB ty hasnd nd sb bits nFactor bx by_ off w b w' :
  PostGISRasterRasterBand DX DY h fuel d nB ty hasnd nd sb bits nFactor bx by_ off w
  = Some (b, w') ->
  (In ("PIXELTYPE", "SIGNEDBYTE", "IMAGE_STRUCTURE")%string (metadata b) <-> sb = true) /\
  (forall v, In ("NBITS", v, "IMAGE_STRUCTURE")%string (metadata b)
             <-> bits < 8 /\ v = printf_d bits) /\
  (forall item, In item (metadata b) -> snd item = "IMAGE_STRUCTURE"%string).
Proof.
  intros Hnew. apply constructor_copies in Hnew as (_ & _ & -> & _).
  unfold image_structure, SetMetadataItem.
  assert (T : forall P Q : Prop, (P -> Q) -> (Q -> P) -> (P <-> Q)) by tauto.
  destruct sb, (Z.ltb_spec bits 8) as [Hb | Hb]; cbn [app In];
    (split; [apply T|split; [intros v; apply T|intros item]]); intros K;
    repeat match goal with
           | H : _ \/ _ |- _ => destruct H
           | H : _ /\ _ |- _ => destruct H
           | H : False |- _ => destruct H
           end;
    subst; try (split; [lia|]); cbn [snd]; auto; try congruence; try lia.
Qed.

(** X10: a row of the overview catalog whose factor [atoi] reads as 0
    makes the constructor of a band of level 0 create a band of level 0
    again, which asks the catalog again: with a store that keeps
    answering so, no depth of nesting is enough and the constructor does
    not return. *)
Theorem constructor_unbounded fuel d nB ty hasnd nd sb bits bx by_ off w r i :
  PQexec h (overview_catalog_command d) = Some r ->
  PQresultStatus r = PGRES_TUPLES_OK ->
  VSICalloc h (PQntuples r) = true ->
  (i < List.length (PQtuples r))%nat ->
  atoi h (PQgetvalue r i 1) = 0 ->
  PostGISRasterRasterBand DX DY h fuel d nB ty hasnd nd sb bits 0 bx by_ off w = None.
Proof.
  intros Hq Hs Hc Hi Hf.
  assert (E : is_tuples_ok (PQresultStatus r) && (0 <? PQntuples r) = true).
  { rewrite Hs. cbn [is_tuples_ok andb]. apply Z.ltb_lt. unfold PQntuples. lia. }
  revert w. induction fuel as [|fuel IH]; intros w;
    cbn [PostGISRasterRasterBand Z.eqb]; rewrite Hq, E, Hc; [reflexivity|].
  rewrite (for_rows_None _ _ 0%nat i); [reflexivity|lia|].
  intros w'. rewrite Hf. apply IH.
Qed.

(** X17: on a dataset with regular blocking the block of a band is the
    one given to the constructor, unchecked.  [GetBlockSize] reports it
    when neither side is 0; when one is, it reports a block of 0 by 0 and
    a failure of the class CPLE_AppDefined. *)
Theorem block_size_with_regular_blocking
    fuel d nB ty hasnd nd sb bits nFactor bx by_ off w b w' :
  DS.bRegularBlocking d = true ->
  PostGISRasterRasterBand DX DY h fuel d nB ty hasnd nd sb bits nFactor bx by_ off w
  = Some (b, w') ->
  nBlockXSize b = bx /\ nBlockYSize b = by_ /\
  (bx <> 0 -> by_ <> 0 -> forall w0, GetBlockSize b w0 = ((bx, by_), w0)) /\
  (bx = 0 \/ by_ = 0 ->
   forall w0, exists msg,
     GetBlockSize b w0 = ((0, 0), CPLError w0 CE_Failure CPLE_AppDefined msg)).
Proof.
  intros Hreg Hnew.
  apply constructor_fields in Hnew as (_ & _ & _ & _ & Hx & Hy).
  unfold block_size in Hx, Hy. rewrite Hreg in Hx, Hy. cbn [fst snd] in Hx, Hy.
  unfold GetBlockSize. rewrite Hx, Hy.
  split; [reflexivity|]. split; [reflexivity|]. split.
  - intros Hx0 Hy0 w0.
    destruct (Z.eqb_spec bx 0); [contradiction|].
    destruct (Z.eqb_spec by_ 0); [contradiction|]. reflexivity.
  - intros H0 w0.
    destruct (Z.eqb_spec bx 0); [cbn [orb]; eauto|].
    destruct (Z.eqb_spec by_ 0); [cbn [orb]; eauto|]. lia.
Qed.

End Overviews.

Lemma level0_band_without_overviews_example :
  exists b,
    PostGISRasterRasterBand 256 256 Scenario.host_no_catalog 0 Example.dataset 1
      GDT_Byte true 0%float false 8 0 0 0 false Example.world0
    = Some (b, sent Example.world0 (overview_catalog_command Example.dataset)) /\
    GetOverviewCount b = 0 /\
    (forall i, GetOverview b i = BaseOverview i) /\
    GetXSize b = 4 /\ GetYSize b = 4 /\
    GetBand b = 1 /\ GetDataset b = Some Example.dataset /\
    HasArbitraryOverviews b = true.
Proof.
  apply (level0_band_without_overviews 256 256 Scenario.host_no_catalog).
  left. reflexivity.
Defined.

Lemma level0_band_overviews_example :
  exists b ov,
    Example.band_of Example.host_overview_fails GDT_Byte 0
    = Some (b, sent Example.world0 (overview_catalog_command Example.dataset)) /\
    GetOverviewCount b = 1 /\
    GetOverview b 0 = OwnOverview ov /\
    nOverviewFactor ov = 2 /\ GetOverviewCount ov = 0.
Proof.
  destruct (level0_band_overviews 256 256 Example.host_overview_fails 1
              Example.dataset 1 GDT_Byte true 0%float false 8 0 0 false
              Example.world0
              {| PQresultStatus := PGRES_TUPLES_OK;
                 PQtuples := [["o_2_tiles"; "2"; "rast"; "public"]]%string |})
    as (b & E & Hc & Hov).
  - reflexivity.
  - reflexivity.
  - discriminate.
  - reflexivity.
  - intros [|i] Hi; [vm_compute; discriminate | cbn in Hi; lia].
  - destruct (Hov 0%nat) as (ov & Ho & Hf & _ & _ & _ & _ & _ & _ & _ & Hn & _);
      [cbn; lia|].
    exists b, ov. repeat split; auto.
Defined.

Lemma overview_array_not_allocated_example :
  exists b msg,
    PostGISRasterRasterBand 256 256 (Scenario.without_memory Example.host_overview_fails)
      2 Example.dataset 1 GDT_Byte true 0%float false 8 0 0 0 false Example.world0
    = Some (b, CPLError (sent Example.world0 (overview_catalog_command Example.dataset))
                 CE_Warning CPLE_OutOfMemory msg) /\
    GetOverviewCount b = 1 /\
    papoOverviews b = None /\
    GetOverview b 0 = InvalidOverview.
Proof.
  destruct (overview_array_not_allocated 256 256
              (Scenario.without_memory Example.host_overview_fails) 2
              Example.dataset 1 GDT_Byte true 0%float false 8 0 0 false
              Example.world0
              {| PQresultStatus := PGRES_TUPLES_OK;
                 PQtuples := [["o_2_tiles"; "2"; "rast"; "public"]]%string |})
    as (b & msg & E & Hc & Hp & Hov & _);
    try reflexivity; try discriminate.
  exists b, msg. repeat split; auto. apply Hov. cbn. lia.
Defined.

Lemma overview_sends_base_command_example :
  sent_command Example.host_overview_fails (Example.overview_band GDT_Byte)
    (Example.read 0 0 2 2 2 2)
  = sent_command Example.host_overview_fails (Example.base_band GDT_Byte)
      (Example.read 0 0 2 2 2 2).
Proof.
  apply (overview_sends_base_command 256 256 Example.host_overview_fails 2
           Example.dataset 1 GDT_Byte true 0%float false 8 0 0 0 false
           Example.world0 (Example.base_band GDT_Byte)
           (sent Example.world0 (overview_catalog_command Example.dataset))
           [Example.overview_band GDT_Byte]).
  - exact (example_bands_constructed GDT_Byte).
  - reflexivity.
  - left. reflexivity.
Defined.

Lemma constructor_metadata_example :
  match PostGISRasterRasterBand 256 256 Example.host_overview_fails 0 Example.dataset 1
          GDT_Byte true 0%float true 4 2 0 0 false Example.world0 with
  | Some (b, _) =>
      In ("PIXELTYPE", "SIGNEDBYTE", "IMAGE_STRUCTURE")%string (metadata b) /\
      In ("NBITS", "4", "IMAGE_STRUCTURE")%string (metadata b)
  | None => False
  end.
Proof.
  destruct (PostGISRasterRasterBand 256 256 Example.host_overview_fails 0
              Example.dataset 1 GDT_Byte true 0%float true 4 2 0 0 false
              Example.world0) as [[b w']|] eqn:E.
  - destruct (constructor_metadata 256 256 Example.host_overview_fails 0
                Example.dataset 1 GDT_Byte true 0%float true 4 2 0 0 false
                Example.world0 b w' E) as (Hp & Hn & _).
    split; [apply Hp; reflexivity | apply Hn; split; [lia | reflexivity]].
  - vm_compute in E. discriminate E.
Defined.

Lemma block_size_with_regular_blocking_example :
  match PostGISRasterRasterBand 256 256 Example.host_overview_fails 0
          Scenario.regular_dataset 1 GDT_Byte true 0%float false 8 2 0 4 false
          Example.world0 with
  | Some (b, _) =>
      nBlockXSize b = 0 /\ nBlockYSize b = 4 /\
      exists msg,
        GetBlockSize b Example.world0
        = ((0, 0), CPLError Example.world0 CE_Failure CPLE_AppDefined msg)
  | None => False
  end.
Proof.
  destruct (PostGISRasterRasterBand 256 256 Example.host_overview_fails 0
              Scenario.regular_dataset 1 GDT_Byte true 0%float false 8 2 0 4 false
              Example.world0) as [[b w']|] eqn:E.
  - destruct (block_size_with_regular_blocking 256 256 Example.host_overview_fails 0
                Scenario.regular_dataset 1 GDT_Byte true 0%float false 8 2 0 4 false
                Example.world0 b w' eq_refl E) as (Hx & Hy & _ & H0).
    split; [exact Hx|]. split; [exact Hy|]. apply H0. left. reflexivity.
  - vm_compute in E. discriminate E.
Defined.

Lemma constructor_unbounded_example :
  PostGISRasterRasterBand 256 256 Scenario.host_factor_0 3 Example.dataset 1
    GDT_Byte true 0%float false 8 0 0 0 false Example.world0 = None.
Proof.
  apply (constructor_unbounded 256 256 Scenario.host_factor_0 3 Example.dataset 1
           GDT_Byte true 0%float false 8 0 0 false Example.world0
           Scenario.catalog_factor_0 0%nat).
  - reflexivity.
  - reflexivity.
  - reflexivity.
  - cbn. lia.
  - reflexivity.
Defined.

(** ** The tiles of a read *)

Section Tiles.

Variable h : Host.

(** The loop over the rows: the sources are those of the rows that open,
    in the order of the rows; each other row leaves a warning. *)
Lemma fold_add_tile d T r (l : list nat) (acc : list SimpleSource * World) :
  exists warnings,
    fst (fold_left (add_tile h d T r) l acc)
    = (fst acc ++ map (tile_source h d T r) (filter (tile_opens h r) l))%list /\
    errors (snd (fold_left (add_tile h d T r) l acc))
    = (errors (snd acc) ++ warnings)%list /\
    List.length warnings
    = List.length (filter (fun i => negb (tile_opens h r i)) l) /\
    Forall is_warning warnings.
Proof.
  revert acc. induction l as [|i l IH]; intros [srcs w].
  - exists []. cbn. rewrite !app_nil_r. auto.
  - cbn [fold_left filter].
    destruct (IH (add_tile h d T r (srcs, w) i)) as (ws & Hs & He & Hn & Hw).
    unfold tile_opens at 1 3. unfold tile_opens at 2.
    unfold add_tile in *.
    destruct (MEMDataset_Open h _); cbn [negb andb] in *.
    + destruct (MEM_GetRasterBand h _); cbn [negb andb] in *.
      * exists ws. cbn [fst snd map] in *. rewrite Hs, He, <- app_assoc.
        unfold tile_source at 2. auto.
      * exists ((CE_Warning, CPLE_AppDefined,
                 "Could not get MEMRasterBand , skipping. The result image may contain gaps"%string)
                :: ws).
        cbn [fst snd CPLError errors List.length] in *.
        rewrite Hs, He, <- app_assoc, Hn. repeat split; auto.
        constructor; [split; reflexivity | exact Hw].
    + exists ((CE_Warning, CPLE_AppDefined,
               "Could not create MEMDataset, skipping. The result image may contain gaps"%string)
              :: ws).
      cbn [fst snd CPLError errors List.length] in *.
      rewrite Hs, He, <- app_assoc, Hn. repeat split; auto.
      constructor; [split; reflexivity | exact Hw].
Qed.

Lemma filter_split {A : Type} (f : A -> bool) (l : list A) :
  (List.length (filter f l) + List.length (filter (fun a => negb (f a)) l)
   = List.length l)%nat.
Proof.
  induction l as [|a l IH]; [reflexivity|].
  cbn [filter]. destruct (f a); cbn [negb List.length]; lia.
Qed.

Lemma install_sources_rows (d : DS.t) (T : list float) (r : PGresult) (w : World) :
  fst (install_sources h d T r w)
  = map (tile_source h d T r)
      (filter (tile_opens h r) (seq 0 (List.length (PQtuples r)))) /\
  exists warnings,
    errors (snd (install_sources h d T r w)) = (errors w ++ warnings)%list /\
    Forall is_warning warnings /\
    (List.length (fst (install_sources h d T r w)) + List.length warnings
     = List.length (PQtuples r))%nat.
Proof.
  unfold install_sources.
  destruct (fold_add_tile d T r (seq 0 (List.length (PQtuples r))) ([], w))
    as (ws & Hs & He & Hn & Hw).
  cbn [fst snd app] in Hs, He. split; [exact Hs|].
  exists ws. repeat split; auto.
  rewrite Hs, Hn, length_map, filter_split. apply length_seq.
Qed.

(** X11: a read on a band of an overview level never goes through an
    overview read: it is the level 0 path, whatever the size of the
    buffer. *)
Theorem overview_band_reads_tiles (b : Band) (rq : Request) (w : World) :
  nOverviewFactor b <> 0 ->
  eRWFlag rq = GF_Read ->
  IRasterIO h b rq w = read_tiles h b rq w.
Proof.
  intros Hf Hr. rewrite (IRasterIO_read h b rq w Hr).
  unfold wants_overview, GetOverviewCount.
  destruct (Z.eqb_spec (nOverviewFactor b) 0); [contradiction|].
  cbn [negb]. rewrite Z.ltb_irrefl, andb_false_r. reflexivity.
Qed.

(** X12: the loop over the rows of the tile query installs one source
    per row whose in-memory dataset opens and gives its band, in the order
    of the rows; every other row is skipped with one warning of the class
    CPLE_AppDefined, and nothing else is reported. *)
Theorem install_sources_in_order (d : DS.t) (T : list float) (r : PGresult) (w : World) :
  fst (install_sources h d T r w)
  = map (tile_source h d T r)
      (filter (tile_opens h r) (seq 0 (List.length (PQtuples r)))) /\
  exists warnings,
    errors (snd (install_sources h d T r w)) = (errors w ++ warnings)%list /\
    Forall is_warning warnings /\
    (List.length (fst (install_sources h d T r w)) + List.length warnings
     = List.length (PQtuples r))%nat.
Proof.
  apply install_sources_rows.
Qed.

Lemma read_tiles_composite_eq (b : Band) (rq : Request) (w : World) (r : PGresult) :
  PQexec h (sent_command h b rq) = Some r ->
  PQresultStatus r = PGRES_TUPLES_OK ->
  PQtuples r <> [] ->
  CPLCalloc h (PQntuples r) = true ->
  VRTCreate h (nXSize rq) (nYSize rq) = true ->
  read_tiles h b rq w
  = (fst (VRTRasterIO h (composite h b rq r) rq (pData w)),
     set_pData
       (snd (install_sources h (poDS b) (DS.GetGeoTransform (poDS b)) r
               (sent w (sent_command h b rq))))
       (snd (VRTRasterIO h (composite h b rq r) rq (pData w)))).
Proof.
  intros Hq Hs Ht Hc Hv. unfold read_tiles. fold (sent_command h b rq).
  rewrite Hq, Hs. cbn [is_tuples_ok negb orb].
  assert (Hn : 0 < PQntuples r).
  { unfold PQntuples. destruct (PQtuples r); [congruence|cbn [List.length]; lia]. }
  destruct (Z.ltb_spec (PQntuples r) 0); [lia|].
  destruct (Z.eqb_spec (PQntuples r) 0); [lia|].
  rewrite Hc, Hv. cbn [negb].
  pose proof (install_sources_rows (poDS b) (DS.GetGeoTransform (poDS b)) r
                (sent w (sent_command h b rq))) as [Hsrc _].
  pose proof (install_sources_frame h (poDS b) (DS.GetGeoTransform (poDS b)) r
                (sent w (sent_command h b rq))) as [_ Hp].
  destruct (install_sources h _ _ r _) as [srcs w2].
  cbn [fst snd] in *. subst srcs. rewrite Hp. cbn [sent pData].
  fold (composite h b rq r).
  destruct (VRTRasterIO h _ rq (pData w)) as [err buf]. reflexivity.
Qed.

(** X13: when the tile query answers with rows and the two allocations
    succeed, the level 0 path ends in one read of the composite into the
    caller's buffer.  The composite has the size of the window, the type
    of the band, the projection and the transform of the dataset, and the
    sources of the rows that opened, in their order.  The status of the
    call is the status of that read and the buffer is as that read left
    it: the tiles that were skipped do not fail the call. *)
Theorem read_tiles_composite (b : Band) (rq : Request) (w : World) (r : PGresult) :
  PQexec h (sent_command h b rq) = Some r ->
  PQresultStatus r = PGRES_TUPLES_OK ->
  PQtuples r <> [] ->
  CPLCalloc h (PQntuples r) = true ->
  VRTCreate h (nXSize rq) (nYSize rq) = true ->
  fst (read_tiles h b rq w) = fst (VRTRasterIO h (composite h b rq r) rq (pData w)) /\
  pData (snd (read_tiles h b rq w))
  = snd (VRTRasterIO h (composite h b rq r) rq (pData w)) /\
  queries (snd (read_tiles h b rq w)) = (queries w ++ [sent_command h b rq])%list.
Proof.
  intros Hq Hs Ht Hc Hv.
  split; [|split; [|apply read_tiles_queries]];
    rewrite (read_tiles_composite_eq b rq w r Hq Hs Ht Hc Hv); reflexivity.
Qed.

(** X14: when the store does not answer the tile query or answers with a
    status other than PGRES_TUPLES_OK, and when one of the two allocations
    for the rows fails, the read returns CE_Failure, reports one failure
    of the class CPLE_AppDefined, has sent the one command, and leaves the
    caller's buffer as it was. *)
Theorem read_tiles_failure (b : Band) (rq : Request) (w : World) :
  (PQexec h (sent_command h b rq) = None \/
   exists r, PQexec h (sent_command h b rq) = Some r /\
     (PQresultStatus r <> PGRES_TUPLES_OK \/
      PQtuples r <> [] /\
      (CPLCalloc h (PQntuples r) = false \/
       VRTCreate h (nXSize rq) (nYSize rq) = false))) ->
  fst (read_tiles h b rq w) = CE_Failure /\
  pData (snd (read_tiles h b rq w)) = pData w /\
  queries (snd (read_tiles h b rq w)) = (queries w ++ [sent_command h b rq])%list /\
  exists msg,
    errors (snd (read_tiles h b rq w))
    = (errors w ++ [(CE_Failure, CPLE_AppDefined, msg)])%list.
Proof.
  intros H. unfold read_tiles. fold (sent_command h b rq).
  destruct H as [-> | (r & -> & H)].
  - cbn. eauto 6.
  - destruct (is_tuples_ok (PQresultStatus r)) eqn:Eok; cbn [negb orb].
    2:{ cbn. eauto 6. }
    destruct H as [H | (Ht & H)].
    { destruct (PQresultStatus r); try discriminate Eok. contradiction. }
    assert (Hn : 0 < PQntuples r).
    { unfold PQntuples. destruct (PQtuples r); [congruence|cbn [List.length]; lia]. }
    destruct (Z.ltb_spec (PQntuples r) 0); [lia|].
    destruct (Z.eqb_spec (PQntuples r) 0); [lia|].
    destruct (CPLCalloc h (PQntuples r)) eqn:Ec; cbn [negb].
    2:{ cbn. eauto 6. }
    destruct H as [H | H]; [discriminate H|]. rewrite H. cbn. eauto 6.
Qed.

(** X15: whatever the store and the host answer, all that the level 0
    path reports is of the class CPLE_AppDefined, also when memory ran
    out; and when it has reported a failure, and not only warnings, the
    call returns CE_Failure and the caller's buffer is as it was. *)
Theorem read_tiles_errors (b : Band) (rq : Request) (w : World) :
  exists reported,
    errors (snd (read_tiles h b rq w)) = (errors w ++ reported)%list /\
    Forall (fun e => snd (fst e) = CPLE_AppDefined) reported /\
    (Exists (fun e => fst (fst e) = CE_Failure) reported ->
     fst (read_tiles h b rq w) = CE_Failure /\
     pData (snd (read_tiles h b rq w)) = pData w).
Proof.
  unfold read_tiles. fold (sent_command h b rq).
  assert (F : forall msg, exists reported,
    errors (CPLError (sent w (sent_command h b rq)) CE_Failure CPLE_AppDefined msg)
    = (errors w ++ reported)%list /\
    Forall (fun e => snd (fst e) = CPLE_AppDefined) reported /\
    (Exists (fun e => fst (fst e) = CE_Failure) reported ->
     CE_Failure = CE_Failure /\
     pData (CPLError (sent w (sent_command h b rq)) CE_Failure CPLE_AppDefined msg)
     = pData w)).
  { intros msg. exists [(CE_Failure, CPLE_AppDefined, msg)]. cbn. repeat split.
    constructor; [reflexivity|constructor]. }
  destruct (PQexec h _) as [r|]; [|apply F].
  destruct (negb _ || _); [apply F|].
  destruct (PQntuples r =? 0).
  { exists []. cbn. rewrite app_nil_r.
    split; [reflexivity|split; [constructor|intros E; inversion E]]. }
  destruct (negb (CPLCalloc h _)); [apply F|].
  destruct (negb (VRTCreate h _ _)); [apply F|].
  pose proof (install_sources_rows (poDS b) (DS.GetGeoTransform (poDS b)) r
                (sent w (sent_command h b rq))) as [_ (ws & He & Hw & _)].
  destruct (install_sources h _ _ r _) as [srcs w2].
  destruct (VRTRasterIO h _ rq (pData w2)) as [err buf].
  cbn [fst snd set_pData errors pData sent] in *.
  exists ws. split; [exact He|]. split.
  - eapply Forall_impl; [|exact Hw]. intros e [_ E]. exact E.
  - intros E. exfalso. apply Exists_exists in E as (e & Hin & Hf).
    rewrite Forall_forall in Hw. destruct (Hw e Hin) as [Hc _]. congruence.
Qed.

End Tiles.

Lemma overview_band_reads_tiles_example :
  IRasterIO Example.host_overview_fails (Example.overview_band GDT_Byte)
    (Example.read 0 0 2 2 1 1) Example.world0
  = read_tiles Example.host_overview_fails (Example.overview_band GDT_Byte)
      (Example.read 0 0 2 2 1 1) Example.world0.
Proof.
  apply overview_band_reads_tiles; [cbn; lia | reflexivity].
Defined.

Lemma read_tiles_composite_example :
  fst (read_tiles Scenario.host_one_tile (Example.base_band GDT_Byte)
         (Example.read 0 0 2 2 2 2) Example.world0)
  = fst (VRTRasterIO Scenario.host_one_tile
           (composite Scenario.host_one_tile (Example.base_band GDT_Byte)
              (Example.read 0 0 2 2 2 2) (Example.one_tile Example.plain_tile))
           (Example.read 0 0 2 2 2 2) (pData Example.world0)) /\
  List.length
    (vrt_sources
       (composite Scenario.host_one_tile (Example.base_band GDT_Byte)
          (Example.read 0 0 2 2 2 2) (Example.one_tile Example.plain_tile)))
  = 1%nat.
Proof.
  split; [|reflexivity].
  apply (read_tiles_composite Scenario.host_one_tile (Example.base_band GDT_Byte)
           (Example.read 0 0 2 2 2 2) Example.world0
           (Example.one_tile Example.plain_tile));
    try reflexivity.
  discriminate.
Defined.

Lemma read_tiles_failure_example :
  fst (read_tiles Scenario.host_no_answer (Example.base_band GDT_Byte)
         (Example.read 0 0 2 2 2 2) Example.world0) = CE_Failure /\
  pData (snd (read_tiles Scenario.host_no_answer (Example.base_band GDT_Byte)
                (Example.read 0 0 2 2 2 2) Example.world0))
  = pData Example.world0.
Proof.
  destruct (read_tiles_failure Scenario.host_no_answer (Example.base_band GDT_Byte)
              (Example.read 0 0 2 2 2 2) Example.world0) as (Hf & Hp & _).
  - left. vm_compute. reflexivity.
  - split; assumption.
Defined.

(** ** A tile on the corner of the dataset *)

Lemma SFsub_equal (x y : spec_float) :
  SFeqb x y = true ->
  match y with S754_zero _ | S754_finite _ _ _ => True | _ => False end ->
  sf_zero (SF64sub x y) /\ sf_zero (SF64sub y x) /\
  SFltb x y = false /\ SFltb y x = false.
Proof.
  unfold SFeqb, SFltb, SF64sub, SFsub.
  destruct x as [sx|sx| |sx mx ex], y as [sy|sy| |sy my ey];
    try destruct sx; try destruct sy; cbn [SFcompare];
    intros E F; try discriminate E; try contradiction; auto.
  all: destruct (ex ?= ey) eqn:Ee; try discriminate E; apply Z.compare_eq in Ee.
  all: destruct (Pos.compare_cont Eq mx my) eqn:Em; try discriminate E;
    apply Pos.compare_eq in Em; subst ey my.
  all: rewrite Z.compare_refl, Pos.compare_cont_refl.
  all: cbn [cond_Zopp CompOpp]; rewrite Z.min_id.
  all: match goal with |- context [binary_normalize _ _ ?z _ _] =>
         replace z with 0 by lia end; cbn; auto.
Qed.

Lemma SFdiv_of_zero (x c : spec_float) :
  sf_zero x ->
  match c with S754_finite _ _ _ | S754_infinity _ => True | _ => False end ->
  sf_zero (SF64div x c).
Proof.
  destruct x, c; try contradiction; intros _ _; exact I.
Qed.

Lemma SFadd_half_zero (x : spec_float) :
  sf_zero x -> SF64add SFhalf x = SFhalf.
Proof.
  destruct x; try contradiction. reflexivity.
Qed.

(** A divisor that is neither 0 nor NaN. *)
Lemma above_zero (c : float) :
  (0 <? C.fabs c)%float = true ->
  match Prim2SF c with S754_finite _ _ _ | S754_infinity _ => True | _ => False end /\
  match Prim2SF (C.fabs c) with
  | S754_finite _ _ _ | S754_infinity _ => True
  | _ => False
  end.
Proof.
  unfold C.fabs. rewrite ltb_spec, abs_spec. change (Prim2SF 0) with (S754_zero false).
  destruct (Prim2SF c) as [s|s| |s m e]; cbn; auto; discriminate.
Qed.

Lemma cast_int_half_more (a b c : float) :
  sf_zero (SF64sub (Prim2SF a) (Prim2SF b)) ->
  match Prim2SF c with S754_finite _ _ _ | S754_infinity _ => True | _ => False end ->
  C.cast_int (0.5 + (a - b) / c)%float = 0.
Proof.
  intros Hz Hc. unfold C.cast_int.
  rewrite add_spec, div_spec, sub_spec, Prim2SF_half.
  rewrite SFadd_half_zero; [reflexivity|].
  apply SFdiv_of_zero; [exact Hz | exact Hc].
Qed.

(** X16: a tile whose upper left corner is the corner of the dataset
    (the same numbers, neither infinite nor NaN) is installed with no
    offset at all, in the tile and in the window, as long as neither
    pixel size of the dataset's transform is 0 or NaN. *)
Theorem corner_tile_offsets (d : DS.t) (T : list float) (t : Tile) (mem : MEMDataset) :
  (dfTileUpperLeftX t =? DS.xmin d)%float = true ->
  (dfTileUpperLeftY t =? DS.ymax d)%float = true ->
  is_number (DS.xmin d) = true ->
  is_number (DS.ymax d) = true ->
  (0 <? C.fabs (at_ T 1))%float = true ->
  (0 <? C.fabs (at_ T 5))%float = true ->
  nSrcXOff (simple_source d T t mem) = 0 /\
  nSrcYOff (simple_source d T t mem) = 0 /\
  nDstXOff (simple_source d T t mem) = 0 /\
  nDstYOff (simple_source d T t mem) = 0.
Proof.
  intros Ex Ey Nx Ny Sx Sy.
  rewrite FloatAxioms.eqb_spec in Ex, Ey. unfold is_number in Nx, Ny.
  destruct (SFsub_equal _ _ Ex) as (Zx & _ & Lx & _).
  { destruct (Prim2SF (DS.xmin d)); try discriminate Nx; exact I. }
  destruct (SFsub_equal _ _ Ey) as (_ & Zy & _ & Ly).
  { destruct (Prim2SF (DS.ymax d)); try discriminate Ny; exact I. }
  apply above_zero in Sx as [Sx _]. apply above_zero in Sy as [_ Sy].
  unfold simple_source. rewrite !ltb_spec, Lx, Ly.
  cbn [nSrcXOff nSrcYOff nDstXOff nDstYOff].
  rewrite !cast_int_half_more by assumption. auto.
Qed.

Lemma corner_tile_offsets_example :
  nSrcXOff (Example.source_of Example.plain_tile) = 0 /\
  nSrcYOff (Example.source_of Example.plain_tile) = 0 /\
  nDstXOff (Example.source_of Example.plain_tile) = 0 /\
  nDstYOff (Example.source_of Example.plain_tile) = 0.
Proof.
  apply corner_tile_offsets; vm_compute; reflexivity.
Defined.

(** ** The windows of the tiles of a read *)

Lemma cast_int_converts (x : float) :
  sf_plus (Prim2SF x) -> converts x = true -> 0 <= C.cast_int x.
Proof.
  unfold converts, C.cast_int, C.trunc_SF.
  destruct (Prim2SF x) as [s|s| |s m e]; cbn [sf_plus]; intros Hs Hc; subst;
    try discriminate Hc; rewrite Hc; [lia|].
  destruct (Z.leb_spec 0 e).
  - apply Z.mul_nonneg_nonneg; [lia | apply Z.pow_nonneg; lia].
  - apply Z.div_pos; [lia |]. apply Z.pow_pos_nonneg; lia.
Qed.

Lemma rounded_quotient_plus (a b c : float) :
  SFcompare (Prim2SF a) (Prim2SF b) <> Some Lt ->
  sf_plus (Prim2SF c) ->
  sf_plus (Prim2SF ((a - b) / c + 0.5)%float).
Proof.
  intros Hab Hc. rewrite add_spec, div_spec, sub_spec, Prim2SF_half.
  apply SFadd_half_plus, SFdiv_nonneg; [|exact Hc].
  apply SFsub_nonneg; auto using Prim2SF_valid.
Qed.

Lemma filter_all {A : Type} (f : A -> bool) (l : list A) :
  (forall a, In a l -> f a = true) -> filter f l = l.
Proof.
  induction l as [|a l IH]; intros H; [reflexivity|].
  cbn [filter]. rewrite (H a (or_introl eq_refl)), IH; [reflexivity|].
  intros a' Ha'. apply H. now right.
Qed.

Lemma Forall2_map_self {A B : Type} (P : A -> B -> Prop) (f : A -> B) (l : list A) :
  (forall a, In a l -> P a (f a)) -> Forall2 P l (map f l).
Proof.
  induction l as [|a l IH]; intros H; cbn [map]; constructor.
  - apply H. now left.
  - apply IH. intros a' Ha'. apply H. now right.
Qed.

Lemma Forall2_nth_error {A B : Type} (P : A -> B -> Prop) (l : list A) (l' : list B)
    (k : nat) (a : A) :
  Forall2 P l l' -> nth_error l k = Some a ->
  exists b, nth_error l' k = Some b /\ P a b.
Proof.
  intros H. revert k. induction H as [|x y l l' Hxy H IH]; intros [|k] E;
    cbn [nth_error] in *; try discriminate E.
  - injection E as <-. eauto.
  - apply IH, E.
Qed.

Section Sources.

Variable h : Host.

(** What a source carries besides its offsets: the band of pixels it was
    given, and the whole tile as its source window. *)
Lemma simple_source_band (d : DS.t) (T : list float) (t : Tile) (mem : MEMDataset) :
  src_band (simple_source d T t mem) = mem /\
  nSrcXSize (simple_source d T t mem) = nTileWidth t /\
  nSrcYSize (simple_source d T t mem) = nTileHeight t.
Proof.
  unfold simple_source.
  destruct (dfTileUpperLeftX t <? DS.xmin d)%float;
    destruct (DS.ymax d <? dfTileUpperLeftY t)%float; auto.
Qed.

(** The signs of the offsets of a source. *)
Lemma simple_source_signs (d : DS.t) (T : list float) (t : Tile) (mem : MEMDataset) :
  (nSrcXOff (simple_source d T t mem) = 0 \/ nDstXOff (simple_source d T t mem) = 0) /\
  (nSrcYOff (simple_source d T t mem) = 0 \/ nDstYOff (simple_source d T t mem) = 0) /\
  (converts ((dfTileUpperLeftY t - DS.ymax d) / C.fabs (dfTileScaleY t) + 0.5) = true ->
   0 <= nSrcYOff (simple_source d T t mem)) /\
  (converts ((DS.ymax d - dfTileUpperLeftY t) / C.fabs (at_ T 5) + 0.5) = true ->
   0 <= nDstYOff (simple_source d T t mem)) /\
  ((0 <? dfTileScaleX t)%float = true ->
   converts ((DS.xmin d - dfTileUpperLeftX t) / dfTileScaleX t + 0.5) = true ->
   0 <= nSrcXOff (simple_source d T t mem)) /\
  ((0 <? at_ T 1)%float = true ->
   converts ((dfTileUpperLeftX t - DS.xmin d) / at_ T 1 + 0.5) = true ->
   0 <= nDstXOff (simple_source d T t mem)).
Proof.
  unfold simple_source.
  destruct (dfTileUpperLeftX t <? DS.xmin d)%float eqn:Ex;
    destruct (DS.ymax d <? dfTileUpperLeftY t)%float eqn:Ey;
    cbn [nSrcXOff nSrcYOff nDstXOff nDstYOff];
    rewrite ?(add_comm 0.5);
    repeat split; auto; intros; try lia;
    apply cast_int_converts; try assumption;
    apply rounded_quotient_plus;
    auto using ltb_true_compare, ltb_false_compare, zero_ltb_plus, fabs_plus.
Qed.

(** C2: the sources installed for a read are, in the order of the rows of
    the tile query, those of the rows whose in-memory dataset opens (all
    the rows when none is skipped); the source of a row carries the
    pixels of that row and the windows of the specification's formulas
    for that row: the offsets by the side of the dataset's corner the
    tile's corner lies on, the sizes by the ratio of the scales, each
    rounded by adding 0.5 and dropping the fraction. *)
Theorem tile_windows_as_specified (d : DS.t) (T : list float) (r : PGresult)
    (w : World) :
  map (fun s => (mem_payload (src_band s), windows_of s))
    (fst (install_sources h d T r w))
  = map (fun i => (PQgetvalue r i 0, row_windows h d T r i))
      (filter (tile_opens h r) (seq 0 (List.length (PQtuples r)))) /\
  ((forall i, (i < List.length (PQtuples r))%nat -> tile_opens h r i = true) ->
   map (fun s => (mem_payload (src_band s), windows_of s))
     (fst (install_sources h d T r w))
   = map (fun i => (PQgetvalue r i 0, row_windows h d T r i))
       (seq 0 (List.length (PQtuples r)))).
Proof.
  assert (E : map (fun s => (mem_payload (src_band s), windows_of s))
                (fst (install_sources h d T r w))
              = map (fun i => (PQgetvalue r i 0, row_windows h d T r i))
                  (filter (tile_opens h r) (seq 0 (List.length (PQtuples r))))).
  { destruct (install_sources_rows h d T r w) as [-> _].
    rewrite map_map. apply map_ext. intros i. unfold tile_source.
    rewrite simple_source_windows.
    destruct (simple_source_band d T (fetch_tile h r i) (tile_mem (fetch_tile h r i)))
      as (-> & _).
    reflexivity. }
  split; [exact E|].
  intros Hall. rewrite E, filter_all; [reflexivity|].
  intros i Hi. apply Hall. apply in_seq in Hi. lia.
Qed.

(** C3 (as amended): the source installed for a row carries the offsets
    and sizes as computed: nothing is clamped, and the source window is
    always the whole tile.  On each axis one of the two offsets is 0.
    The other is not negative, when its rounded quotient is a value of
    int: along y always, and along x when the scale it is divided by is
    above 0. *)
Theorem installed_offsets (d : DS.t) (T : list float) (r : PGresult) (w : World) :
  Forall2
    (fun i s =>
       let tlx := atof h (PQgetvalue r i 7) in
       let tly := atof h (PQgetvalue r i 8) in
       let tsx := atof h (PQgetvalue r i 5) in
       let tsy := atof h (PQgetvalue r i 6) in
       windows_of s = row_windows h d T r i /\
       nSrcXSize s = atoi h (PQgetvalue r i 1) /\
       nSrcYSize s = atoi h (PQgetvalue r i 2) /\
       (nSrcXOff s = 0 \/ nDstXOff s = 0) /\
       (nSrcYOff s = 0 \/ nDstYOff s = 0) /\
       (converts ((tly - DS.ymax d) / C.fabs tsy + 0.5) = true -> 0 <= nSrcYOff s) /\
       (converts ((DS.ymax d - tly) / C.fabs (at_ T 5) + 0.5) = true ->
        0 <= nDstYOff s) /\
       ((0 <? tsx)%float = true ->
        converts ((DS.xmin d - tlx) / tsx + 0.5) = true -> 0 <= nSrcXOff s) /\
       ((0 <? at_ T 1)%float = true ->
        converts ((tlx - DS.xmin d) / at_ T 1 + 0.5) = true -> 0 <= nDstXOff s))
    (filter (tile_opens h r) (seq 0 (List.length (PQtuples r))))
    (fst (install_sources h d T r w)).
Proof.
  destruct (install_sources_rows h d T r w) as [-> _].
  apply Forall2_map_self. intros i _. unfold tile_source.
  destruct (simple_source_band d T (fetch_tile h r i) (tile_mem (fetch_tile h r i)))
    as (_ & Hw & Hh).
  pose proof (simple_source_signs d T (fetch_tile h r i) (tile_mem (fetch_tile h r i)))
    as (Hx & Hy & Hsy & Hdy & Hsx & Hdx).
  cbv zeta. split; [apply simple_source_windows|].
  split; [exact Hw|]. split; [exact Hh|]. split; [exact Hx|]. split; [exact Hy|].
  split; [exact Hsy|]. split; [exact Hdy|]. split; [exact Hsx|exact Hdx].
Qed.

End Sources.

(** Of two tiles, the second, two pixels east and three south of the
    dataset's corner, is installed at the destination offset (2, 3). *)
Lemma tile_windows_as_specified_example :
  map (fun s => (mem_payload (src_band s), windows_of s))
    (fst (install_sources Example.host_overview_fails Example.dataset
            (DS.GetGeoTransform Example.dataset) Scenario.two_tiles Example.world0))
  = [ ("00"%string,
       {| Spec.src_x_off := 0; Spec.src_y_off := 0;
          Spec.dst_x_off := 0; Spec.dst_y_off := 0;
          Spec.dst_x_size := 2; Spec.dst_y_size := 2 |});
      ("11"%string,
       {| Spec.src_x_off := 0; Spec.src_y_off := 0;
          Spec.dst_x_off := 2; Spec.dst_y_off := 3;
          Spec.dst_x_size := 2; Spec.dst_y_size := 2 |}) ].
Proof.
  destruct (tile_windows_as_specified Example.host_overview_fails Example.dataset
              (DS.GetGeoTransform Example.dataset) Scenario.two_tiles Example.world0)
    as [E _].
  rewrite E. vm_compute. reflexivity.
Defined.

(** A read of the whole mirrored dataset asks for the polygon over
    x in [-4, 0], y in [-4, 0]; the store answers with the tile over
    x in [-4, -2], y in [-2, 0], and the tile is installed with the source
    offset -1 along x and its whole width. *)
Lemma negative_offset_installed :
  sent_polygon Scenario.mirrored_band (Example.read 0 0 4 4 4 4)
  = [(0, 0); (-4, 0); (-4, -4); (0, -4); (0, 0)]%float /\
  PQexec Scenario.host_mirrored
    (sent_command Scenario.host_mirrored Scenario.mirrored_band
       (Example.read 0 0 4 4 4 4))
  = Some (Example.one_tile Scenario.mirrored_row) /\
  exists s,
    fst (install_sources Scenario.host_mirrored (poDS Scenario.mirrored_band)
           (DS.GetGeoTransform (poDS Scenario.mirrored_band))
           (Example.one_tile Scenario.mirrored_row) Example.world0) = [s] /\
    nSrcXOff s = -1 /\ nSrcXSize s = 2 /\ nDstXOff s = 0.
Proof.
  split; [vm_compute; reflexivity|]. split; [vm_compute; reflexivity|].
  eexists. split; [vm_compute; reflexivity|]. repeat split.
Qed.

(** The second of the two tiles: its offsets are not negative. *)
Lemma installed_offsets_example :
  exists s,
    nth_error
      (fst (install_sources Example.host_overview_fails Example.dataset
              (DS.GetGeoTransform Example.dataset) Scenario.two_tiles Example.world0))
      1 = Some s /\
    nSrcXSize s = 2 /\ nSrcYSize s = 2 /\
    0 <= nSrcXOff s /\ 0 <= nSrcYOff s /\ 0 <= nDstXOff s /\ 0 <= nDstYOff s.
Proof.
  destruct (Forall2_nth_error _ _ _ 1 1%nat
              (installed_offsets Example.host_overview_fails Example.dataset
                 (DS.GetGeoTransform Example.dataset) Scenario.two_tiles Example.world0)
              eq_refl)
    as (s & Hs & _ & Hw & Hh & _ & _ & Hsy & Hdy & Hsx & Hdx).
  exists s. split; [exact Hs|]. split; [exact Hw|]. split; [exact Hh|].
  split; [apply Hsx; reflexivity|]. split; [apply Hsy; reflexivity|].
  split; [apply Hdx; reflexivity | apply Hdy; reflexivity].
Defined.
